(** * LLMAIS: the Anthropic API client (src/ais/api_client/anthropic/client.py)

    A shallow embedding of the cost estimator, the configuration store and
    the first-run selection flow of [client.py], and the properties of the
    specification that concern them.

    Modelling conventions
    - Python [str] is [string]; the text is ASCII, so [lower] and [strip]
      act on the ASCII letters and the ASCII white space only.
    - Python [int] is [Z]; Python [float] is an IEEE 754 binary64 number,
      [spec_float] with precision 53 and maximal exponent 1024, computed
      with the correctly rounded operations of [SpecFloat]; the division of
      two [int]s raises [OverflowError] where its quotient is beyond the
      floats.
    - A value read from or written to the JSON config is a [value]; a
      Python [dict] with string keys is a [gmap string value], [None] is
      [VNone] (JSON null).
    - The config file is seen through what [os.path.exists], [open] and
      [json.load] make of it (type [file]): the parsed value, or the
      exception that reading it raises; [json.dump] followed by [json.load]
      gives back the dumped dictionary.
    - Console input is the list of the lines still to be read; console
      output and file writes are appended to a log of [event]s.
    - An exception is an [exn]; a method is a function from the machine
      state to the new state and either a result or a raised exception
      (the state changes made before a raise are kept, as in Python). *)

From Stdlib Require Import ZArith Lia Bool Ascii String.
From Stdlib Require Import Floats.SpecFloat.
From stdpp Require Import gmap strings list fin_maps.

#[local] Set Warnings "-register-all".
#[local] Open Scope Z_scope.
#[local] Open Scope string_scope.

(** ** Strings *)

Definition lower_char (c : ascii) : ascii :=
  let n := N_of_ascii c in
  if ((65 <=? n) && (n <=? 90))%N then ascii_of_N (n + 32) else c.

(** [str.lower()] *)
Fixpoint lower (s : string) : string :=
  match s with
  | EmptyString => EmptyString
  | String c t => String (lower_char c) (lower t)
  end.

(** White space of [str.strip()]: TAB, LF, VT, FF, CR, FS, GS, RS, US, SPACE. *)
Definition is_space (c : ascii) : bool :=
  let n := N_of_ascii c in
  (((9 <=? n) && (n <=? 13)) || ((28 <=? n) && (n <=? 32)))%N.

Fixpoint lstrip (s : string) : string :=
  match s with
  | EmptyString => EmptyString
  | String c t => if is_space c then lstrip t else s
  end.

Fixpoint rstrip (s : string) : string :=
  match s with
  | EmptyString => EmptyString
  | String c t =>
      match rstrip t with
      | EmptyString => if is_space c then EmptyString else String c EmptyString
      | t' => String c t'
      end
  end.

(** [str.strip()] *)
Definition strip (s : string) : string := rstrip (lstrip s).

(** [needle in hay] on strings: [needle] occurs as a substring of [hay]. *)
Fixpoint contains (needle hay : string) : bool :=
  String.prefix needle hay ||
  match hay with
  | EmptyString => false
  | String _ t => contains needle t
  end.

(** The line feed of the messages. *)
Definition nl : string := String "010"%char EmptyString.

(** ** [int(text)] in base 10

    An optional sign, then decimal digits, single underscores allowed
    between two digits, white space allowed around; anything else is a
    [ValueError] ([None] here), and so is a text of more than
    [int_max_str_digits] digits (the default of CPython 3.11 and later). *)

Definition digit_of (c : ascii) : option Z :=
  let n := N_of_ascii c in
  if ((48 <=? n) && (n <=? 57))%N then Some (Z.of_N (n - 48)) else None.

(** [after_digit] tells whether the previous character was a digit, the only
    place where an underscore or the end of the text is allowed. *)
Fixpoint parse_digits (s : string) (acc : Z) (after_digit : bool) : option Z :=
  match s with
  | EmptyString => if after_digit then Some acc else None
  | String c t =>
      match digit_of c with
      | Some d => parse_digits t (10 * acc + d) true
      | None =>
          if (Ascii.eqb c "_" && after_digit)%bool then parse_digits t acc false
          else None
      end
  end.

Definition int_max_str_digits : Z := 4300.

Fixpoint count_digits (s : string) : Z :=
  match s with
  | EmptyString => 0
  | String c t =>
      match digit_of c with
      | Some _ => 1 + count_digits t
      | None => count_digits t
      end
  end.

Definition parse_int (text : string) : option Z :=
  let s := strip text in
  if (int_max_str_digits <? count_digits s)%Z then None
  else
    match s with
    | String "-" t => option_map Z.opp (parse_digits t 0 false)
    | String "+" t => parse_digits t 0 false
    | _ => parse_digits s 0 false
    end.

(** [str(k)] for [k >= 0]: the decimal digits of [k]; a number has no more
    decimal digits than binary ones. *)
Definition digit_char (d : Z) : ascii := ascii_of_N (48 + Z.to_N d).

Fixpoint decimal_go (fuel : nat) (k : Z) : string :=
  match fuel with
  | O => EmptyString
  | S fuel' =>
      if (k <? 10)%Z then String (digit_char k) EmptyString
      else decimal_go fuel' (k / 10) ++ String (digit_char (k mod 10)) EmptyString
  end.

Definition decimal (k : Z) : string := decimal_go (S (Z.to_nat (Z.log2 k))) k.

(** The message of the [ValueError] that converting a numeral of [digits]
    digits, more than the limit, raises. *)
Definition int_limit_message (digits : Z) : string :=
  "Exceeds the limit (" ++ decimal int_max_str_digits ++
  " digits) for integer string conversion: value has " ++ decimal digits ++
  " digits; use sys.set_int_max_str_digits() to increase the limit".

(** ** Floats *)

Definition prec : Z := 53.
Definition emax : Z := 1024.

Abbreviation float := spec_float.

(** The float of an integer literal such as [3.00]. *)
Definition float_of_Z (n : Z) : float := binary_normalize prec emax n 0 false.

(** A float that is a number: neither an infinity nor NaN. *)
Definition finite (x : float) : bool :=
  match x with
  | S754_zero _ | S754_finite _ _ _ => true
  | _ => false
  end.

Definition fmul : float -> float -> float := SFmul prec emax.
Definition fadd : float -> float -> float := SFadd prec emax.

Definition int_mantissa (n : Z) : float :=
  match n with
  | Z0 => S754_zero false
  | Zpos p => S754_finite false p 0
  | Zneg p => S754_finite true p 0
  end.

(** The correctly rounded quotient of two integers, the infinity where it
    is beyond the range of a float. *)
Definition int_quotient (a b : Z) : float :=
  SFdiv prec emax (int_mantissa a) (int_mantissa b).

(** ** Python values and exceptions *)

Inductive value : Type :=
  | VNone
  | VBool (b : bool)
  | VInt (n : Z)
  | VFloat (f : float)
  | VStr (s : string)
  | VList (l : list value)
  | VDict (d : gmap string value).

Inductive exn : Type :=
  | ValueError (msg : string)
  | TypeError
  | AttributeError
  | OSError                 (* [IOError] is the same class in Python 3 *)
  | JSONDecodeError
  | UnicodeDecodeError
  | EOFError
  | OverflowError
  | ZeroDivisionError
  | RecursionError
  | SystemExit (code : Z).

Inductive outcome (A : Type) : Type :=
  | Return (a : A)
  | Raise (e : exn).

Arguments Return {A} a.
Arguments Raise {A} e.

(** Sequencing of two computations that may raise. *)
Definition and_then {A B} (r : outcome A) (k : A -> outcome B) : outcome B :=
  match r with
  | Return a => k a
  | Raise e => Raise e
  end.

Notation "'let!' x ':=' r 'in' k" := (and_then r (fun x => k))
  (at level 10, x name, r at level 100, k at level 200).

(** [a / b] on two Python integers: the correctly rounded quotient;
    [ZeroDivisionError] for a zero divisor, [OverflowError] where the rounded
    quotient is beyond the range of a float (from 2^1024, about 1.8e308). *)
Definition truediv (a b : Z) : outcome float :=
  if (b =? 0)%Z then Raise ZeroDivisionError
  else
    match int_quotient a b with
    | S754_infinity _ => Raise OverflowError
    | q => Return q
    end.

(** ** Section 2 of the source: constants *)

Definition HAIKU_MODEL : string := "claude-haiku-4-5".
Definition SONNET_MODEL : string := "claude-sonnet-4-5".
Definition OPUS_MODEL : string := "claude-opus-4-5".

Definition HAIKU_INPUT : float := float_of_Z 1.
Definition HAIKU_OUTPUT : float := float_of_Z 5.
Definition HAIKU_CONTEXT : Z := 200000.

Definition SONNET_INPUT : float := float_of_Z 3.
Definition SONNET_OUTPUT : float := float_of_Z 15.
Definition SONNET_CONTEXT : Z := 200000.

Definition OPUS_INPUT : float := float_of_Z 5.
Definition OPUS_OUTPUT : float := float_of_Z 25.
Definition OPUS_CONTEXT : Z := 200000.

(** ** Section 3 of the source: [estimate_cost] *)

Definition unknown_model_message (model : string) : string :=
  nl ++ "Unknown model: " ++ model ++ nl ++
  "Valid models: " ++ HAIKU_MODEL ++ ", " ++ SONNET_MODEL ++ ", " ++ OPUS_MODEL ++ nl ++
  "Use client.set_model() to change your model".

Definition estimate_cost (input_tokens output_tokens : Z) (model : string)
  : outcome float :=
  let! costs :=
    if contains "haiku" (lower model) then
      let! input_millions := truediv input_tokens 1000000 in
      let input_cost := fmul input_millions HAIKU_INPUT in
      let! output_millions := truediv output_tokens 1000000 in
      let output_cost := fmul output_millions HAIKU_OUTPUT in
      Return (input_cost, output_cost)
    else if contains "sonnet" (lower model) then
      let! input_millions := truediv input_tokens 1000000 in
      let input_cost := fmul input_millions SONNET_INPUT in
      let! output_millions := truediv output_tokens 1000000 in
      let output_cost := fmul output_millions SONNET_OUTPUT in
      Return (input_cost, output_cost)
    else if contains "opus" (lower model) then
      let! input_millions := truediv input_tokens 1000000 in
      let input_cost := fmul input_millions OPUS_INPUT in
      let! output_millions := truediv output_tokens 1000000 in
      let output_cost := fmul output_millions OPUS_OUTPUT in
      Return (input_cost, output_cost)
    else
      Raise (ValueError (unknown_model_message model)) in
  Return (fadd (fst costs) (snd costs)).

(** ** The machine: the client object, the config file, the console *)

(** The two cached fields of a [Client]; [VNone] while unresolved. *)
Record client : Type := {
  model : value;
  default_max_tokens : value
}.

(** What reading the bytes of the config file gives: bytes that are not
    text in the locale's encoding ([UnicodeDecodeError]), text that is not
    JSON ([json.JSONDecodeError]), JSON with an integer of more digits than
    [int] converts (a plain [ValueError]), JSON nested deeper than the
    interpreter's recursion limit ([RecursionError]), or the JSON value. *)
Inductive content : Type :=
  | Undecodable
  | Garbled
  | TooManyDigits (digits : Z)
  | TooDeep
  | Json (v : value).

Record file : Type := {
  readable : bool;              (* [open(path, 'r')] and the read succeed *)
  data : content
}.

(** What is printed, and what is written to the config file. *)
Inductive event : Type :=
  | PrintSetupBanner
  | PrintModelMenu
  | PrintNoModelExit
  | PrintInvalidModelChoice
  | PrintTokensBanner (model : string) (MAX_INPUT : Z)
  | PrintTokensMenu (MAX_INPUT : Z)
  | PrintHighCostWarning
  | PrintQueryCost (cost : float)
  | PrintRangeError (MAX_INPUT : Z)
  | PrintNotNumber
  | PrintInvalidTokensChoice
  | PrintSelected (model : value)
  | PrintModelChanged (model : value)
  | PrintConfigWarning (e : exn)
  | FileWrite (config : value).

Record machine : Type := {
  self : client;
  config_file : option file;    (* config/api/anthropic.json, if it exists *)
  writable : bool;              (* [open(path, 'w')] succeeds *)
  stdin : list string;          (* the lines [input()] will read *)
  log : list event              (* oldest first *)
}.

Definition with_self (c : client) (m : machine) : machine :=
  {| self := c; config_file := config_file m; writable := writable m;
     stdin := stdin m; log := log m |}.

Definition with_file (f : file) (m : machine) : machine :=
  {| self := self m; config_file := Some f; writable := writable m;
     stdin := stdin m; log := log m |}.

Definition with_stdin (lines : list string) (m : machine) : machine :=
  {| self := self m; config_file := config_file m; writable := writable m;
     stdin := lines; log := log m |}.

(** The machine after the events [evs] happened. *)
Definition logged (evs : list event) (m : machine) : machine :=
  {| self := self m; config_file := config_file m; writable := writable m;
     stdin := stdin m; log := (log m ++ evs)%list |}.

Definition M (A : Type) : Type := machine -> machine * outcome A.

Definition ret {A} (a : A) : M A := fun m => (m, Return a).

Definition raise {A} (e : exn) : M A := fun m => (m, Raise e).

Definition bind {A B} (c : M A) (k : A -> M B) : M B :=
  fun m =>
    match c m with
    | (m', Return a) => k a m'
    | (m', Raise e) => (m', Raise e)
    end.

(** [try: body except <caught> as e: handler] *)
Definition try_except {A} (body : M A) (caught : exn -> bool) (handler : exn -> M A)
  : M A :=
  fun m =>
    match body m with
    | (m', Return a) => (m', Return a)
    | (m', Raise e) => if caught e then handler e m' else (m', Raise e)
    end.

Declare Scope py_scope.
Delimit Scope py_scope with py.
Notation "x <- c ;; k" := (bind c (fun x => k))
  (at level 100, c at next level, right associativity) : py_scope.
Notation "c ;; k" := (bind c (fun _ => k))
  (at level 100, right associativity) : py_scope.
#[local] Open Scope py_scope.

Definition lift {A} (r : outcome A) : M A := fun m => (m, r).

Definition print (e : event) : M unit :=
  fun m => (logged [e] m, Return tt).

Definition get_self : M client := fun m => (m, Return (self m)).

Definition set_self (c : client) : M unit :=
  fun m => (with_self c m, Return tt).

(** [self.model = v] and [self.default_max_tokens = v] *)
Definition assign_model (v : value) : M unit :=
  c <- get_self ;; set_self {| model := v; default_max_tokens := default_max_tokens c |}.

Definition assign_default_max_tokens (v : value) : M unit :=
  c <- get_self ;; set_self {| model := model c; default_max_tokens := v |}.

(** [os.path.exists(config_path)] *)
Definition path_exists : M bool :=
  fun m => (m, Return (match config_file m with Some _ => true | None => false end)).

(** [with open(config_path, 'r') as f: json.load(f)] *)
Definition json_load : M value :=
  fun m =>
    match config_file m with
    | None => (m, Raise OSError)
    | Some f =>
        if readable f then
          match data f with
          | Undecodable => (m, Raise UnicodeDecodeError)
          | Garbled => (m, Raise JSONDecodeError)
          | TooManyDigits n => (m, Raise (ValueError (int_limit_message n)))
          | TooDeep => (m, Raise RecursionError)
          | Json v => (m, Return v)
          end
        else (m, Raise OSError)
    end.

(** The exceptions of the read that the clause
    [except (json.JSONDecodeError, IOError)] does not catch. *)
Definition uncaught (c : content) : option exn :=
  match c with
  | Undecodable => Some UnicodeDecodeError
  | TooManyDigits n => Some (ValueError (int_limit_message n))
  | TooDeep => Some RecursionError
  | Garbled | Json _ => None
  end.

(** [with open(config_path, 'w') as f: json.dump(config, f, indent=2)]:
    the file is created or replaced (its permissions are kept when it
    existed), or the open fails. *)
Definition json_dump (config : value) : M unit :=
  fun m =>
    if writable m then
      let r := match config_file m with Some f => readable f | None => true end in
      (logged [FileWrite config] (with_file {| readable := r; data := Json config |} m),
       Return tt)
    else (m, Raise OSError).

(** [d.get(key, default)]; only a dict has a [get]. *)
Definition py_get (d : value) (key : string) (default_ : value) : outcome value :=
  match d with
  | VDict kvs => Return (match kvs !! key with Some v => v | None => default_ end)
  | _ => Raise AttributeError
  end.

(** [d[key] = v]; with a string key only a dict accepts it. *)
Definition py_setitem (d : value) (key : string) (v : value) : outcome value :=
  match d with
  | VDict kvs => Return (VDict (<[key := v]> kvs))
  | _ => Raise TypeError
  end.

Definition is_none (v : value) : bool :=
  match v with VNone => true | _ => false end.

(** ** Section 4 of the source: the [Client] class *)

Definition config_errors (e : exn) : bool :=
  match e with
  | JSONDecodeError | OSError => true
  | _ => false
  end.

Definition _load_model_from_config : M (value * value) :=
  present <- path_exists ;;
  if negb present then ret (VNone, VNone)
  else
    try_except
      (config <- json_load ;;
       model <- lift (py_get config "model" VNone) ;;
       llm <- lift (py_get config "llm" (VDict ∅)) ;;
       max_tokens <- lift (py_get llm "default_max_tokens" VNone) ;;
       ret (model, max_tokens))
      config_errors
      (fun e => print (PrintConfigWarning e) ;; ret (VNone, VNone)).

Definition _save_model_to_config : M unit :=
  present <- path_exists ;;
  config <- (if present
             then try_except json_load config_errors (fun _ => ret (VDict ∅))
             else ret (VDict ∅)) ;;
  c <- get_self ;;
  config <- lift (py_setitem config "model" (model c)) ;;
  config <- lift (py_setitem config "default_max_tokens" (default_max_tokens c)) ;;
  json_dump config.

Definition _get_context_limit : M Z :=
  c <- get_self ;;
  match model c with
  | VStr s =>
      if contains "haiku" (lower s) then ret HAIKU_CONTEXT
      else if contains "sonnet" (lower s) then ret SONNET_CONTEXT
      else if contains "opus" (lower s) then ret OPUS_CONTEXT
      else ret 10000
  | _ => raise AttributeError
  end.

(** The console loops. Each reads the lines it needs from the front of
    [lines] and yields what it printed, the lines left and its result;
    [input()] at the end of the input raises [EOFError]. *)
Definition loop_result (A : Type) : Type := list event * list string * outcome A.

Definition printed {A} (evs : list event) (r : loop_result A) : loop_result A :=
  let '(evs', rest, o) := r in ((evs ++ evs')%list, rest, o).

(** The model selection loop (the first [while True]); the result is the
    identifier assigned to [self.model] before the [break]. *)
Fixpoint model_loop (lines : list string) : loop_result string :=
  match lines with
  | [] => ([PrintModelMenu], [], Raise EOFError)
  | line :: rest =>
      let choice := strip line in
      if String.eqb choice "1" then ([PrintModelMenu], rest, Return HAIKU_MODEL)
      else if String.eqb choice "2" then ([PrintModelMenu], rest, Return SONNET_MODEL)
      else if String.eqb choice "3" then ([PrintModelMenu], rest, Return OPUS_MODEL)
      else if String.eqb choice "4" then
        ([PrintModelMenu; PrintNoModelExit], rest, Raise (SystemExit 0))
      else printed [PrintModelMenu; PrintInvalidModelChoice] (model_loop rest)
  end.

(** The max-tokens loop (the second [while True]); the result is the value
    assigned to [self.default_max_tokens] before the [break]. [model] is
    [self.model]. The [except ValueError] of choice 5 covers the [int(...)]
    and the [estimate_cost] of the warning alike. *)
Fixpoint max_tokens_loop (MAX_INPUT : Z) (model : string) (lines : list string)
  : loop_result Z :=
  let menu := PrintTokensMenu MAX_INPUT in
  match lines with
  | [] => ([menu], [], Raise EOFError)
  | line :: rest =>
      let choice := strip line in
      if String.eqb choice "1" then ([menu], rest, Return 1024)
      else if String.eqb choice "2" then ([menu], rest, Return 2048)
      else if String.eqb choice "3" then ([menu], rest, Return 4096)
      else if String.eqb choice "4" then ([menu], rest, Return 8192)
      else if String.eqb choice "5" then
        match rest with
        | [] => ([menu], [], Raise EOFError)
        | line2 :: rest2 =>
            match parse_int (strip line2) with
            | Some custom =>
                if ((1 <=? custom) && (custom <=? MAX_INPUT))%Z then
                  if (10000 <? custom)%Z then
                    match estimate_cost custom custom model with
                    | Return cost =>
                        match rest2 with
                        | [] =>
                            ([menu; PrintHighCostWarning; PrintQueryCost cost], [],
                             Raise EOFError)
                        | line3 :: rest3 =>
                            let confirm := lower (strip line3) in
                            if negb (String.eqb confirm "y") then
                              printed [menu; PrintHighCostWarning; PrintQueryCost cost]
                                (max_tokens_loop MAX_INPUT model rest3)
                            else
                              ([menu; PrintHighCostWarning; PrintQueryCost cost], rest3,
                               Return custom)
                        end
                    | Raise (ValueError _) =>
                        printed [menu; PrintHighCostWarning; PrintNotNumber]
                          (max_tokens_loop MAX_INPUT model rest2)
                    | Raise e => ([menu; PrintHighCostWarning], rest2, Raise e)
                    end
                  else ([menu], rest2, Return custom)
                else
                  printed [menu; PrintRangeError MAX_INPUT]
                    (max_tokens_loop MAX_INPUT model rest2)
            | None =>
                printed [menu; PrintNotNumber] (max_tokens_loop MAX_INPUT model rest2)
            end
        end
      else printed [menu; PrintInvalidTokensChoice] (max_tokens_loop MAX_INPUT model rest)
  end.

(** Run a console loop on the machine's input. *)
Definition console {A} (loop : list string -> loop_result A) : M A :=
  fun m =>
    let '(evs, rest, o) := loop (stdin m) in
    (logged evs (with_stdin rest m), o).

Definition _prompt_model_selection : M unit :=
  print PrintSetupBanner ;;
  chosen <- console model_loop ;;
  assign_model (VStr chosen) ;;
  MAX_INPUT <- _get_context_limit ;;
  print (PrintTokensBanner chosen MAX_INPUT) ;;
  tokens <- console (max_tokens_loop MAX_INPUT chosen) ;;
  assign_default_max_tokens (VInt tokens) ;;
  _save_model_to_config ;;
  c <- get_self ;;
  print (PrintSelected (model c)).

Fixpoint join (sep : string) (l : list string) : string :=
  match l with
  | [] => ""
  | [x] => x
  | x :: t => x ++ sep ++ join sep t
  end.

Definition invalid_model_message (model : string) (valid_models : list string) : string :=
  nl ++ "Invalid model: " ++ model ++ nl ++ "Valid models: " ++ join ", " valid_models.

Definition set_model (new_model : string) : M unit :=
  let valid_models := [HAIKU_MODEL; SONNET_MODEL; OPUS_MODEL] in
  if negb (existsb (String.eqb new_model) valid_models) then
    raise (ValueError (invalid_model_message new_model valid_models))
  else
    assign_model (VStr new_model) ;;
    _save_model_to_config ;;
    c <- get_self ;;
    print (PrintModelChanged (model c)).

(** [Client.__init__], after the API key and the transport client (external
    collaborators) are set up. *)
Definition __init__ : M unit :=
  loaded <- _load_model_from_config ;;
  assign_model (fst loaded) ;;
  assign_default_max_tokens (snd loaded) ;;
  c <- get_self ;;
  if is_none (model c) || is_none (default_max_tokens c)
  then _prompt_model_selection
  else ret tt.

(** A freshly allocated client object, and a fresh environment: no config
    file yet, in a directory where it can be created. *)
Definition no_client : client := {| model := VNone; default_max_tokens := VNone |}.

Definition fresh (lines : list string) : machine :=
  {| self := no_client; config_file := None; writable := true;
     stdin := lines; log := [] |}.

(** What lines 251-252 of [_save_model_to_config] make of the dictionary
    [d]: the two keys the method writes, both at the top level. *)
Definition owned_fields (c : client) (d : gmap string value) : gmap string value :=
  <["default_max_tokens" := default_max_tokens c]> (<["model" := model c]> d).

(** The configs written to the file, oldest first. *)
Definition writes (evs : list event) : list value :=
  omap (fun e => match e with FileWrite config => Some config | _ => None end) evs.

(** A new process on the same disk: a fresh client object, new input, an
    empty log. *)
Definition restart (lines : list string) (m : machine) : machine :=
  {| self := no_client; config_file := config_file m; writable := writable m;
     stdin := lines; log := [] |}.

(** ** The pricing table as the specification words it

    One [family] per supported model, classified by the first of the
    tokens haiku, sonnet, opus (in that priority) that occurs in the
    lower-cased model string. *)

Inductive family : Type := Haiku | Sonnet | Opus.

Definition family_token (f : family) : string :=
  match f with Haiku => "haiku" | Sonnet => "sonnet" | Opus => "opus" end.

Definition input_price (f : family) : float :=
  match f with Haiku => HAIKU_INPUT | Sonnet => SONNET_INPUT | Opus => OPUS_INPUT end.

Definition output_price (f : family) : float :=
  match f with Haiku => HAIKU_OUTPUT | Sonnet => SONNET_OUTPUT | Opus => OPUS_OUTPUT end.

Definition classify (model : string) : option family :=
  List.find (fun f => contains (family_token f) (lower model)) [Haiku; Sonnet; Opus].

(** [(i / 1_000_000) * input_price + (o / 1_000_000) * output_price],
    evaluated from left to right in Python's arithmetic. *)
Definition cost_formula (i o : Z) (f : family) : outcome float :=
  let! input_millions := truediv i 1000000 in
  let! output_millions := truediv o 1000000 in
  Return (fadd (fmul input_millions (input_price f))
               (fmul output_millions (output_price f))).

(** ** Section 3 of the source: [format_cost]

    [f"{x:.nf}"] prints the decimal number with [n] digits after the point
    that is nearest to the exact value of the float, a tie going to the even
    digit; [fixed] is that conversion for [n >= 1]. *)

(** The last [n] decimal digits of [k], padded with zeros. *)
Fixpoint fixed_digits (n : nat) (k : Z) : string :=
  match n with
  | O => EmptyString
  | S n' => fixed_digits n' (k / 10) ++ String (digit_char (k mod 10)) EmptyString
  end.

(** [num / den] rounded to the nearest integer, ties to even
    ([0 <= num], [0 < den]). *)
Definition round_half_even (num den : Z) : Z :=
  let q := num / den in
  match (2 * (num mod den) ?= den)%Z with
  | Lt => q
  | Gt => q + 1
  | Eq => if Z.even q then q else q + 1
  end.

Definition sign_text (s : bool) : string := if s then "-" else "".

Definition fixed (n : nat) (x : float) : string :=
  match x with
  | S754_nan => "nan"
  | S754_infinity s => sign_text s ++ "inf"
  | S754_zero s => sign_text s ++ "0." ++ fixed_digits n 0
  | S754_finite s m e =>
      let scaled :=
        if (0 <=? e)%Z then Zpos m * 2 ^ e * 10 ^ Z.of_nat n
        else round_half_even (Zpos m * 10 ^ Z.of_nat n) (2 ^ (- e)) in
      sign_text s ++ decimal (scaled / 10 ^ Z.of_nat n) ++ "." ++ fixed_digits n scaled
  end.

(** The float literal [0.01]. *)
Definition CENT : float := S754_finite false 5764607523034235 (-59).

Definition format_cost (cost_usd : float) : string :=
  if SFltb cost_usd CENT then "$" ++ fixed 4 cost_usd
  else "$" ++ fixed 2 cost_usd.

(** ** Section 3 of the source: [get_api_key]

    The shell environment as the function sees it: the value of
    [ANTHROPIC_API_KEY], the text of [~/.bashrc] (empty when the file does
    not exist) and whether [open(bashrc_path, 'a')] succeeds. *)

Record shell : Type := {
  environ_key : option string;
  bashrc : string;
  bashrc_appendable : bool
}.

Inductive key_event : Type :=
  | PrintKeyNotFound
  | PrintInvalidKeyFormat
  | PrintOfferToSave
  | PrintKeySaved
  | PrintSessionOnly (api_key : string)
  | PrintKeyRule.

(** [not text], for [text] a string or [None]. *)
Definition falsy (text : option string) : bool :=
  match text with
  | Some (String _ _) => false
  | _ => true
  end.

(** The two [f.write] of the permanent setup. *)
Definition bashrc_entry (api_key : string) : string :=
  (nl ++ "# Anthropic API Key (added by LLMAIS)" ++ nl) ++
  ("export ANTHROPIC_API_KEY='" ++ api_key ++ "'" ++ nl).

Definition key_result : Type := shell * list key_event * list string * outcome string.

Definition get_api_key (sh : shell) (lines : list string) : key_result :=
  if falsy (environ_key sh) then
    match lines with
    | [] => (sh, [PrintKeyNotFound], [], Raise EOFError)
    | line :: rest =>
        let api_key := strip line in
        if negb (String.prefix "sk-ant-" api_key) then
          (sh, [PrintKeyNotFound; PrintInvalidKeyFormat], rest, Raise (SystemExit 1))
        else
          match rest with
          | [] => (sh, [PrintKeyNotFound; PrintOfferToSave], [], Raise EOFError)
          | line2 :: rest2 =>
              let save := lower (strip line2) in
              if String.eqb save "y" then
                if bashrc_appendable sh then
                  ({| environ_key := environ_key sh;
                      bashrc := bashrc sh ++ bashrc_entry api_key;
                      bashrc_appendable := bashrc_appendable sh |},
                   [PrintKeyNotFound; PrintOfferToSave; PrintKeySaved; PrintKeyRule],
                   rest2, Return api_key)
                else (sh, [PrintKeyNotFound; PrintOfferToSave], rest2, Raise OSError)
              else
                (sh, [PrintKeyNotFound; PrintOfferToSave; PrintSessionOnly api_key;
                      PrintKeyRule],
                 rest2, Return api_key)
          end
    end
  else
    (sh, [], lines, Return (default "" (environ_key sh))).

(** [Client(api_key)]: the key is the argument or, when that is [None] or
    empty, the result of [get_api_key]; building the transport client from
    the key is external and taken to succeed; the rest of the constructor is
    [__init__] above, on the console input the key dialogue left. *)
Definition Client (api_key : option string) (sh : shell) (m : machine)
  : shell * list key_event * machine * outcome string :=
  let '(sh', evs, rest, key) :=
    if falsy api_key then get_api_key sh (stdin m)
    else (sh, [], stdin m, Return (default "" api_key)) in
  match key with
  | Raise e => (sh', evs, with_stdin rest m, Raise e)
  | Return k =>
      let '(m', r) := __init__ (with_stdin rest m) in
      (sh', evs, m', match r with Return _ => Return k | Raise e => Raise e end)
  end.

(** ** [Client.query]

    The transport [self.client.messages.create] is a parameter: it answers
    a request with a response or fails with [anthropic.APIError]. *)

Record request : Type := {
  request_model : value;
  request_max_tokens : value;
  request_system : option string;           (* the keyword is absent for [None] *)
  request_messages : list (string * string) (* role, content *)
}.

Record response : Type := {
  usage_input_tokens : Z;
  usage_output_tokens : Z;
  response_content : list string            (* the [text] of each content block *)
}.

Inductive reply : Type :=
  | Replied (r : response)
  | Failed (msg : string).

Inductive query_exn : Type :=
  | Builtin (e : exn)
  | APIError (msg : string)
  | IndexError.

(** The dictionary [query] returns. *)
Record result : Type := {
  text : string;
  input_tokens : Z;
  output_tokens : Z;
  cost : float;
  used_model : value
}.

Inductive query_event : Type :=
  | PrintResponse (r : result)
  | PrintAPICallFailed (msg : string).

Definition no_model_message : string :=
  nl ++ "No model selected. Cannot make API call." ++ nl ++
  "Run client initialization again to select a model.".

Definition query (messages_create : request -> reply) (this : client)
    (prompt : string) (max_tokens : option Z) (system_prompt : option string)
  : list query_event * (query_exn + result) :=
  if is_none (model this) then ([], inl (Builtin (ValueError no_model_message)))
  else
    let max_tokens :=
      match max_tokens with
      | None => default_max_tokens this
      | Some n => VInt n
      end in
    let sent :=
      {| request_model := model this;
         request_max_tokens := max_tokens;
         request_system := if falsy system_prompt then None else system_prompt;
         request_messages := [("user", prompt)] |} in
    match messages_create sent with
    | Failed msg => ([PrintAPICallFailed msg], inl (APIError msg))
    | Replied r =>
        let priced :=
          match model this with
          | VStr s => estimate_cost (usage_input_tokens r) (usage_output_tokens r) s
          | _ => Raise AttributeError
          end in
        match priced with
        | Raise e => ([], inl (Builtin e))
        | Return c =>
            match response_content r with
            | [] => ([], inl IndexError)
            | response_text :: _ =>
                let res := {| text := response_text;
                              input_tokens := usage_input_tokens r;
                              output_tokens := usage_output_tokens r;
                              cost := c;
                              used_model := model this |} in
                ([PrintResponse res], inr res)
            end
        end
    end.

(** A float that is neither NaN nor has its sign bit set: zero, a positive
    number or the positive infinity. *)
Definition nonnegative (x : float) : bool :=
  match x with
  | S754_zero false | S754_infinity false | S754_finite false _ _ => true
  | _ => false
  end.

Fixpoint all_digits (s : string) : bool :=
  match s with
  | EmptyString => true
  | String c t =>
      match digit_of c with
      | Some _ => all_digits t
      | None => false
      end
  end.

(** The request [query] sends. *)
Definition sent_request (this : client) (prompt : string) (max_tokens : option Z)
    (system_prompt : option string) : request :=
  {| request_model := model this;
     request_max_tokens :=
       match max_tokens with
       | None => default_max_tokens this
       | Some n => VInt n
       end;
     request_system := if falsy system_prompt then None else system_prompt;
     request_messages := [("user", prompt)] |}.

(** * Properties *)

(** ** Substrings *)

Lemma append_cons (c : ascii) (s t : string) : String c s ++ t = String c (s ++ t).
Proof. reflexivity. Qed.

Lemma append_empty_l (t : string) : "" ++ t = t.
Proof. reflexivity. Qed.

Lemma append_assoc (s t u : string) : (s ++ t) ++ u = s ++ (t ++ u).
Proof.
  induction s as [|c s IH]; [reflexivity|].
  rewrite !append_cons. now rewrite IH.
Qed.

Lemma prefix_append (s t : string) : String.prefix s (s ++ t) = true.
Proof.
  induction s as [|c s IH].
  - rewrite append_empty_l. now destruct t.
  - rewrite append_cons. cbn [String.prefix].
    destruct (ascii_dec c c) as [_|ne]; [exact IH | now destruct ne].
Qed.

Lemma contains_here (s t : string) : contains s (s ++ t) = true.
Proof.
  destruct (s ++ t) eqn:E; cbn [contains];
    rewrite <- E, prefix_append; reflexivity.
Qed.

Lemma contains_append_r (s a b : string) :
  contains s b = true -> contains s (a ++ b) = true.
Proof.
  intros H. induction a as [|c a IH]; [exact H|].
  rewrite append_cons. cbn [contains]. rewrite IH. apply orb_true_r.
Qed.

(** ** The division of two integers

    The quotient of a non-negative integer by a positive one is never
    negative, and it is within the range of a float while the dividend is
    below 2^1000. *)

Lemma iter_pos_invariant {A} (P : A -> Prop) (f : A -> A) :
  (forall x, P x -> P (f x)) -> forall p x, P x -> P (SpecFloat.iter_pos f p x).
Proof.
  intros Hf. induction p as [p IH|p IH|]; intros x Hx; cbn [SpecFloat.iter_pos]; auto.
Qed.

Lemma shr_1_nonneg (mrs : shr_record) : 0 <= shr_m mrs -> 0 <= shr_m (shr_1 mrs).
Proof.
  destruct mrs as [mant r st]. cbn [shr_m]. intros H.
  destruct mant as [|[q|q|]|q]; cbn; lia.
Qed.

Lemma shr_fexp_nonneg (mant e : Z) (l : location) :
  0 <= mant -> 0 <= shr_m (fst (shr_fexp prec emax mant e l)).
Proof.
  intros H. unfold shr_fexp, shr.
  assert (0 <= shr_m (shr_record_of_loc mant l)) as H0
    by (destruct l as [|[]]; exact H).
  destruct (fexp prec emax (Zdigits2 mant + e) - e) as [|q|q]; cbn [fst]; try exact H0.
  apply (iter_pos_invariant (fun x => 0 <= shr_m x)); [apply shr_1_nonneg | exact H0].
Qed.

Lemma round_nearest_even_nonneg (mant : Z) (l : location) :
  0 <= mant -> 0 <= round_nearest_even mant l.
Proof.
  intros H. destruct l as [|[]]; cbn; try lia. destruct (Z.even mant); lia.
Qed.

(** Rounding a non-negative mantissa keeps the sign it is given. *)
Lemma binary_round_aux_sign (mant e : Z) (l : location) :
  0 <= mant -> nonnegative (binary_round_aux prec emax false mant e l) = true.
Proof.
  intros H. unfold binary_round_aux.
  pose proof (shr_fexp_nonneg mant e l H) as H1.
  destruct (shr_fexp prec emax mant e l) as [mrs1 e1]. cbn [fst] in H1.
  pose proof (shr_fexp_nonneg _ e1 loc_Exact
                (round_nearest_even_nonneg _ (loc_of_shr_record mrs1) H1)) as H2.
  destruct (shr_fexp prec emax _ e1 loc_Exact) as [mrs2 e2]. cbn [fst] in H2.
  destruct (shr_m mrs2) as [|q|q]; [reflexivity| |lia].
  now destruct (e2 <=? emax - prec)%Z.
Qed.

Lemma int_quotient_nonneg (a b : Z) :
  0 <= a -> 0 < b -> nonnegative (int_quotient a b) = true.
Proof.
  intros Ha Hb. unfold int_quotient.
  destruct b as [|q|q]; try lia. destruct a as [|r|r]; try lia; [reflexivity|].
  cbn [int_mantissa SFdiv xorb]. unfold SFdiv_core_binary.
  set (s := _ - _ - _).
  set (m' := match s with Z0 => Z.pos r | Zpos _ => Z.shiftl (Z.pos r) s | Zneg _ => 0 end).
  assert (0 <= m') as Hm.
  { subst m'. destruct s; [lia | apply Z.shiftl_nonneg; lia | lia]. }
  pose proof (Z.div_pos m' (Z.pos q) Hm ltac:(lia)) as Hq.
  unfold Z.div in Hq. destruct (Z.div_eucl m' (Z.pos q)) as [quo rem].
  cbn [fst] in Hq. now apply binary_round_aux_sign.
Qed.

(** A positive number lies between the powers of two that its number of
    binary digits names. *)
Lemma digits2_pos_range (p : positive) :
  2 ^ (Z.pos (digits2_pos p) - 1) <= Z.pos p < 2 ^ Z.pos (digits2_pos p).
Proof.
  induction p as [p IH|p IH|]; cbn [digits2_pos]; [| |cbn; lia].
  all: rewrite Pos2Z.inj_succ;
    replace (Z.succ (Z.pos (digits2_pos p)) - 1) with (Z.succ (Z.pos (digits2_pos p) - 1)) by lia;
    rewrite !Z.pow_succ_r by lia; lia.
Qed.

Lemma Zdigits2_nonneg (m : Z) : 0 <= Zdigits2 m.
Proof. destruct m; cbn; lia. Qed.

Lemma Zdigits2_le (m k : Z) : 0 <= m < 2 ^ k -> 0 <= k -> Zdigits2 m <= k.
Proof.
  intros [H0 H] Hk. destruct m as [|p|p]; cbn [Zdigits2]; try lia.
  pose proof (digits2_pos_range p) as [Hl _].
  assert (2 ^ (Z.pos (digits2_pos p) - 1) < 2 ^ k) as Hlt by lia.
  apply Z.pow_lt_mono_r_iff in Hlt; lia.
Qed.

Lemma Zdigits2_lt_pow (m : Z) : 0 <= m -> m < 2 ^ Zdigits2 m.
Proof.
  intros H. destruct m as [|p|p]; cbn [Zdigits2]; try lia.
  apply digits2_pos_range.
Qed.

Lemma shr_1_halves (mrs : shr_record) :
  0 <= shr_m mrs -> 0 <= shr_m (shr_1 mrs) /\ 2 * shr_m (shr_1 mrs) <= shr_m mrs.
Proof.
  destruct mrs as [mant r st]. cbn [shr_m]. intros H.
  destruct mant as [|[q|q|]|q]; cbn; lia.
Qed.

(** Shifting a non-negative mantissa right by [p] bits divides it by [2^p]. *)
Lemma iter_shr_1 (p : positive) (mrs : shr_record) :
  0 <= shr_m mrs ->
  0 <= shr_m (SpecFloat.iter_pos shr_1 p mrs) /\
  shr_m (SpecFloat.iter_pos shr_1 p mrs) * 2 ^ Z.pos p <= shr_m mrs.
Proof.
  revert mrs. induction p as [p IH|p IH|]; intros mrs H; cbn [SpecFloat.iter_pos].
  - destruct (shr_1_halves mrs H) as [H0 H1].
    destruct (IH _ H0) as [H2 H3]. destruct (IH _ H2) as [H4 H5].
    split; [exact H4|].
    replace (Z.pos p~1) with (Z.pos p + Z.pos p + 1) by lia.
    rewrite !Z.pow_add_r by lia. change (2 ^ 1) with 2.
    pose proof (Z.pow_pos_nonneg 2 (Z.pos p) ltac:(lia) ltac:(lia)). nia.
  - destruct (IH _ H) as [H2 H3]. destruct (IH _ H2) as [H4 H5].
    split; [exact H4|].
    replace (Z.pos p~0) with (Z.pos p + Z.pos p) by lia.
    rewrite Z.pow_add_r by lia.
    pose proof (Z.pow_pos_nonneg 2 (Z.pos p) ltac:(lia) ltac:(lia)). nia.
  - destruct (shr_1_halves mrs H) as [H0 H1]. split; [exact H0|]. change (2 ^ 1) with 2. lia.
Qed.

(** Shifting right keeps the number of digits plus the exponent below a
    bound [k], and the exponent below a bound [j] that the format's
    exponents respect. *)
Lemma shr_fexp_range (m e : Z) (l : location) (k j : Z) :
  0 <= m -> Zdigits2 m + e <= k -> e <= j ->
  k - prec <= j -> 3 - emax - prec <= j -> j <= k ->
  let '(mrs, e') := shr_fexp prec emax m e l in
  0 <= shr_m mrs /\ Zdigits2 (shr_m mrs) + e' <= k /\ e' <= j.
Proof.
  intros Hm Hk He Hkj Hmin Hjk. unfold shr_fexp, shr.
  assert (shr_m (shr_record_of_loc m l) = m) as Hrec by (destruct l as [|[]]; reflexivity).
  pose proof (Zdigits2_nonneg m) as Hd.
  destruct (fexp prec emax (Zdigits2 m + e) - e) as [|p|p] eqn:En;
    try (rewrite Hrec; lia).
  destruct (iter_shr_1 p (shr_record_of_loc m l)) as [H0 H1]; [rewrite Hrec; exact Hm|].
  rewrite Hrec in H1. set (m1 := shr_m (SpecFloat.iter_pos _ _ _)) in *.
  unfold fexp, emin in En.
  change (IntDef.Z.max ?x ?y) with (Z.max x y) in En.
  unfold prec, emax in *.
  split; [exact H0|]. split; [|lia].
  destruct (Z.eq_dec m1 0) as [->|Hnz]; [cbn [Zdigits2]; lia|].
  assert (Zdigits2 m1 <= Zdigits2 m - Z.pos p); [|lia].
  pose proof (Zdigits2_lt_pow m Hm) as Hup.
  destruct m1 as [|q|q]; try lia. cbn [Zdigits2].
  pose proof (digits2_pos_range q) as [Hl _].
  assert (2 ^ (Z.pos (digits2_pos q) - 1) * 2 ^ Z.pos p < 2 ^ Zdigits2 m) as Hlt.
  { pose proof (Z.pow_pos_nonneg 2 (Z.pos p) ltac:(lia) ltac:(lia)). nia. }
  rewrite <- Z.pow_add_r in Hlt by lia.
  apply Z.pow_lt_mono_r_iff in Hlt; lia.
Qed.

Lemma round_nearest_even_range (m : Z) (l : location) :
  0 <= m -> 0 <= round_nearest_even m l <= m + 1.
Proof.
  intros H. destruct l as [|[]]; cbn; try lia. destruct (Z.even m); lia.
Qed.

(** Rounding gives a finite float while the digits and the exponent stay
    within the format. *)
Lemma binary_round_aux_finite (sx : bool) (m e : Z) (l : location) :
  0 <= m -> Zdigits2 m + e <= emax - 1 -> e <= emax - prec ->
  finite (binary_round_aux prec emax sx m e l) = true.
Proof.
  intros Hm Hk He. unfold binary_round_aux.
  pose proof (shr_fexp_range m e l (emax - 1) (emax - prec) Hm Hk He) as H1.
  destruct (shr_fexp prec emax m e l) as [mrs1 e1].
  destruct H1 as (H0 & Hd1 & He1); [unfold prec, emax in *; lia..|].
  set (mr := round_nearest_even _ _).
  assert (0 <= mr <= shr_m mrs1 + 1) as Hr by (apply round_nearest_even_range; exact H0).
  assert (Zdigits2 mr <= Zdigits2 (shr_m mrs1) + 1) as Hdr.
  { apply Zdigits2_le; [|pose proof (Zdigits2_nonneg (shr_m mrs1)); lia].
    pose proof (Zdigits2_lt_pow _ H0). rewrite Z.pow_add_r by (try apply Zdigits2_nonneg; lia).
    change (2 ^ 1) with 2. lia. }
  pose proof (shr_fexp_range mr e1 loc_Exact emax (emax - prec) (proj1 Hr)) as H2.
  destruct (shr_fexp prec emax mr e1 loc_Exact) as [mrs2 e2].
  destruct H2 as (H3 & Hd2 & He2); [unfold prec, emax in *; lia..|].
  destruct (shr_m mrs2) as [|q|q]; [reflexivity| |lia].
  destruct (Z.leb_spec e2 (emax - prec)); [reflexivity | lia].
Qed.

(** The quotient of a number below 2^1000 by a positive one is a float. *)
Lemma int_quotient_finite (a b : Z) :
  0 <= a < 2 ^ 1000 -> 0 < b -> finite (int_quotient a b) = true.
Proof.
  intros [Ha Hlt] Hb. unfold int_quotient.
  destruct b as [|q|q]; try lia. destruct a as [|r|r]; try lia; [reflexivity|].
  cbn [int_mantissa SFdiv xorb]. unfold SFdiv_core_binary.
  set (e' := Z.min _ _). set (s := 0 - 0 - e').
  assert (e' <= 0) as He by (subst e'; lia).
  set (m' := match s with Z0 => Z.pos r | Zpos _ => Z.shiftl (Z.pos r) s | Zneg _ => 0 end).
  assert (0 <= m' < 2 ^ (1000 + s)) as Hm.
  { assert (m' = Z.pos r * 2 ^ s) as ->.
    { subst m'. destruct s eqn:Es; [cbn; lia | now rewrite Z.shiftl_mul_pow2 | lia]. }
    rewrite Z.pow_add_r by lia.
    pose proof (Z.pow_pos_nonneg 2 s ltac:(lia) ltac:(lia)). nia. }
  pose proof (Z.div_pos m' (Z.pos q) ltac:(lia) ltac:(lia)) as Hq.
  assert (m' / Z.pos q <= m') as Hle
    by (apply Z.div_le_upper_bound; [lia | nia]).
  unfold Z.div in Hq, Hle. destruct (Z.div_eucl m' (Z.pos q)) as [quo rem].
  cbn [fst] in Hq, Hle. apply binary_round_aux_finite; [exact Hq | | unfold emax, prec; lia].
  assert (Zdigits2 quo <= 1000 + s) by (apply Zdigits2_le; lia).
  unfold emax. lia.
Qed.

Lemma truediv_in_range (a b : Z) :
  0 < b -> finite (int_quotient a b) = true ->
  truediv a b = Return (int_quotient a b).
Proof.
  intros Hb Hf. unfold truediv. destruct (Z.eqb_spec b 0) as [->|_]; [lia|].
  now destruct (int_quotient a b).
Qed.

Lemma truediv_overflow (a b : Z) :
  0 <= a -> 0 < b -> finite (int_quotient a b) = false ->
  truediv a b = Raise OverflowError.
Proof.
  intros Ha Hb Hf. unfold truediv. destruct (Z.eqb_spec b 0) as [->|_]; [lia|].
  pose proof (int_quotient_nonneg a b Ha Hb) as Hs.
  now destruct (int_quotient a b) as [[]|[]| |[] mant e].
Qed.

Lemma truediv_cases (a b : Z) :
  0 <= a -> 0 < b ->
  truediv a b = if finite (int_quotient a b) then Return (int_quotient a b)
                else Raise OverflowError.
Proof.
  intros Ha Hb. destruct (finite (int_quotient a b)) eqn:Hf.
  - now apply truediv_in_range.
  - now apply truediv_overflow.
Qed.

Lemma truediv_below_bound (a : Z) :
  0 <= a < 2 ^ 1000 -> truediv a 1000000 = Return (int_quotient a 1000000).
Proof.
  intros Ha. apply truediv_in_range; [lia | apply int_quotient_finite; [exact Ha | lia]].
Qed.

(** The division at the edge of the floats: the least quotient that
    overflows is 2^1024 - 2^970, half way between the largest float and
    2^1024. *)
Example truediv_examples :
  truediv 1 1000000 = Return (S754_finite false 4722366482869645 (-72)) /\
  truediv ((2 ^ 1024 - 2 ^ 970) * 1000000 - 1) 1000000
    = Return (S754_finite false (2 ^ 53 - 1) 971) /\
  truediv ((2 ^ 1024 - 2 ^ 970) * 1000000) 1000000 = Raise OverflowError /\
  truediv (10 ^ 400) 1000000 = Raise OverflowError /\
  truediv 1 0 = Raise ZeroDivisionError.
Proof. repeat split; vm_compute; reflexivity. Qed.

(** ** The cost estimator *)

Example classify_examples :
  classify "claude-haiku-4-5" = Some Haiku /\
  classify "Claude-Sonnet-4-5" = Some Sonnet /\
  classify "CLAUDE-OPUS-4-5" = Some Opus /\
  classify "sonnet-or-haiku" = Some Haiku /\
  classify "opus-sonnet" = Some Sonnet /\
  classify "gpt-4" = None.
Proof. repeat split; reflexivity. Qed.

Example estimate_cost_examples :
  estimate_cost 1000000 1000000 "claude-haiku-4-5" = Return (float_of_Z 6) /\
  estimate_cost 1000000 1000000 "Claude-Sonnet-4-5" = Return (float_of_Z 18) /\
  estimate_cost 200000 200000 "claude-opus-4-5" = Return (float_of_Z 6) /\
  estimate_cost 0 0 "claude-opus-4-5" = Return (S754_zero false).
Proof. repeat split; vm_compute; reflexivity. Qed.

Lemma classify_estimate_cost (i o : Z) (model : string) (f : family) :
  classify model = Some f ->
  estimate_cost i o model = cost_formula i o f.
Proof.
  unfold classify, estimate_cost, cost_formula. cbn [List.find family_token].
  destruct (contains "haiku" (lower model));
    [intros [= <-]; now destruct (truediv i 1000000), (truediv o 1000000)|].
  destruct (contains "sonnet" (lower model));
    [intros [= <-]; now destruct (truediv i 1000000), (truediv o 1000000)|].
  destruct (contains "opus" (lower model));
    [intros [= <-]; now destruct (truediv i 1000000), (truediv o 1000000)|].
  discriminate.
Qed.

(** The formula on non-negative counts: its value where both quotients are
    floats, [OverflowError] where one is not. *)
Lemma cost_formula_cases (i o : Z) (f : family) :
  0 <= i -> 0 <= o ->
  cost_formula i o f
  = if finite (int_quotient i 1000000) && finite (int_quotient o 1000000)
    then Return (fadd (fmul (int_quotient i 1000000) (input_price f))
                      (fmul (int_quotient o 1000000) (output_price f)))
    else Raise OverflowError.
Proof.
  intros Hi Ho. unfold cost_formula.
  rewrite (truediv_cases i 1000000 Hi), (truediv_cases o 1000000 Ho) by lia.
  now destruct (finite (int_quotient i 1000000)), (finite (int_quotient o 1000000)).
Qed.

Lemma cost_formula_below_bound (i o : Z) (f : family) :
  0 <= i < 2 ^ 1000 -> 0 <= o < 2 ^ 1000 ->
  cost_formula i o f
  = Return (fadd (fmul (int_quotient i 1000000) (input_price f))
                 (fmul (int_quotient o 1000000) (output_price f))).
Proof.
  intros Hi Ho. rewrite cost_formula_cases by lia.
  now rewrite !int_quotient_finite by lia.
Qed.

Lemma truediv_raises (a : Z) (e : exn) :
  truediv a 1000000 = Raise e -> e = OverflowError.
Proof.
  unfold truediv. cbn [Z.eqb].
  destruct (int_quotient a 1000000); try discriminate. now intros [= <-].
Qed.

Lemma cost_formula_raises (i o : Z) (f : family) (e : exn) :
  cost_formula i o f = Raise e ->
  e = OverflowError /\ ~ (0 <= i < 2 ^ 1000 /\ 0 <= o < 2 ^ 1000).
Proof.
  unfold cost_formula. intros H.
  destruct (truediv i 1000000) as [qi|ei] eqn:Ei.
  - destruct (truediv o 1000000) as [qo|eo] eqn:Eo; [discriminate|].
    injection H as <-. split; [exact (truediv_raises o _ Eo)|].
    intros [_ Ho]. now rewrite (truediv_below_bound o Ho) in Eo.
  - injection H as <-. split; [exact (truediv_raises i _ Ei)|].
    intros [Hi _]. now rewrite (truediv_below_bound i Hi) in Ei.
Qed.

(** [estimate_cost] raises on an unknown model, and on a count whose
    quotient is beyond the floats. *)
Lemma estimate_cost_raises (i o : Z) (model : string) (e : exn) :
  estimate_cost i o model = Raise e ->
  (classify model = None /\ e = ValueError (unknown_model_message model)) \/
  (e = OverflowError /\ ~ (0 <= i < 2 ^ 1000 /\ 0 <= o < 2 ^ 1000)).
Proof.
  destruct (classify model) as [f|] eqn:Hf.
  - rewrite (classify_estimate_cost i o model f Hf). intros H. right.
    exact (cost_formula_raises i o f e H).
  - unfold classify in Hf. cbn [List.find family_token] in Hf. unfold estimate_cost.
    destruct (contains "haiku" (lower model)); [discriminate Hf|].
    destruct (contains "sonnet" (lower model)); [discriminate Hf|].
    destruct (contains "opus" (lower model)); [discriminate Hf|].
    intros [= <-]. now left.
Qed.

(** C4, the claim as stated fails: at an input count of 10^400 the
    division [input_tokens / 1_000_000] raises [OverflowError], and
    [estimate_cost] returns no cost. *)
Lemma estimate_cost_overflows :
  0 <= 10 ^ 400 /\ 0 <= 0 /\
  contains "haiku" (lower "claude-haiku-4-5") = true /\
  estimate_cost (10 ^ 400) 0 "claude-haiku-4-5" = Raise OverflowError /\
  forall c : float, estimate_cost (10 ^ 400) 0 "claude-haiku-4-5" <> Return c.
Proof.
  assert (estimate_cost (10 ^ 400) 0 "claude-haiku-4-5" = Raise OverflowError) as H
    by (vm_compute; reflexivity).
  split; [lia|]. split; [lia|]. split; [reflexivity|]. split; [exact H|].
  intros c. rewrite H. discriminate.
Qed.

(** C4. For non-negative token counts [i] and [o] and a model whose
    lower-cased form contains one of the tokens haiku, sonnet, opus, the
    family priced is haiku if its token occurs in the lower-cased model
    string, else sonnet if its token occurs, else opus; where the quotients
    [i / 1_000_000] and [o / 1_000_000] are within the range of a float,
    as they are for all counts below 2^1000, [estimate_cost i o model] is
    [(i / 1_000_000) * input_price + (o / 1_000_000) * output_price] at the
    prices of that family, and where one is not it raises
    [OverflowError]. *)
Theorem estimate_cost_formula (i o : Z) (model : string) :
  0 <= i -> 0 <= o ->
  contains "haiku" (lower model) || contains "sonnet" (lower model)
    || contains "opus" (lower model) = true ->
  exists f : family,
    classify model = Some f /\
    f = (if contains "haiku" (lower model) then Haiku
         else if contains "sonnet" (lower model) then Sonnet
         else Opus) /\
    estimate_cost i o model
    = (if finite (int_quotient i 1000000) && finite (int_quotient o 1000000)
       then Return (fadd (fmul (int_quotient i 1000000) (input_price f))
                         (fmul (int_quotient o 1000000) (output_price f)))
       else Raise OverflowError) /\
    (i < 2 ^ 1000 -> o < 2 ^ 1000 ->
     finite (int_quotient i 1000000) && finite (int_quotient o 1000000) = true).
Proof.
  intros Hi Ho Hfam.
  assert (classify model
          = Some (if contains "haiku" (lower model) then Haiku
                  else if contains "sonnet" (lower model) then Sonnet
                  else Opus)) as Hf.
  { unfold classify. cbn [List.find family_token].
    destruct (contains "haiku" (lower model)); [reflexivity|].
    destruct (contains "sonnet" (lower model)); [reflexivity|].
    destruct (contains "opus" (lower model)); [reflexivity | discriminate]. }
  eexists. split; [exact Hf|]. split; [reflexivity|]. split.
  - rewrite (classify_estimate_cost i o model _ Hf). now apply cost_formula_cases.
  - intros Hi' Ho'. now rewrite !int_quotient_finite by lia.
Qed.

Lemma estimate_cost_formula_witness :
  exists f : family,
    classify "Claude-Sonnet-4-5" = Some f /\
    f = (if contains "haiku" (lower "Claude-Sonnet-4-5") then Haiku
         else if contains "sonnet" (lower "Claude-Sonnet-4-5") then Sonnet
         else Opus) /\
    estimate_cost 1000 500 "Claude-Sonnet-4-5"
    = (if finite (int_quotient 1000 1000000) && finite (int_quotient 500 1000000)
       then Return (fadd (fmul (int_quotient 1000 1000000) (input_price f))
                         (fmul (int_quotient 500 1000000) (output_price f)))
       else Raise OverflowError) /\
    (1000 < 2 ^ 1000 -> 500 < 2 ^ 1000 ->
     finite (int_quotient 1000 1000000) && finite (int_quotient 500 1000000) = true).
Proof. apply estimate_cost_formula; [lia | lia | reflexivity]. Defined.

(** C5. For a model whose lower-cased form contains none of the tokens
    haiku, sonnet, opus, [estimate_cost] raises the [ValueError] of the
    unknown model, whose message holds the model string as given and the
    three valid identifiers; no cost is returned. *)
Theorem estimate_cost_unknown_model (i o : Z) (model : string) :
  contains "haiku" (lower model) = false ->
  contains "sonnet" (lower model) = false ->
  contains "opus" (lower model) = false ->
  estimate_cost i o model = Raise (ValueError (unknown_model_message model)) /\
  contains ("Unknown model: " ++ model) (unknown_model_message model) = true /\
  contains HAIKU_MODEL (unknown_model_message model) = true /\
  contains SONNET_MODEL (unknown_model_message model) = true /\
  contains OPUS_MODEL (unknown_model_message model) = true.
Proof.
  intros Hh Hs Ho. split.
  { unfold estimate_cost. now rewrite Hh, Hs, Ho. }
  unfold unknown_model_message.
  split; [|split; [|split]].
  - apply contains_append_r.
    rewrite <- (append_assoc "Unknown model: " model). apply contains_here.
  - do 5 apply contains_append_r. apply contains_here.
  - do 7 apply contains_append_r. apply contains_here.
  - do 9 apply contains_append_r. apply contains_here.
Qed.

Lemma estimate_cost_unknown_model_witness :
  estimate_cost 10 20 "gpt-4" = Raise (ValueError (unknown_model_message "gpt-4")) /\
  contains ("Unknown model: " ++ "gpt-4") (unknown_model_message "gpt-4") = true /\
  contains HAIKU_MODEL (unknown_model_message "gpt-4") = true /\
  contains SONNET_MODEL (unknown_model_message "gpt-4") = true /\
  contains OPUS_MODEL (unknown_model_message "gpt-4") = true.
Proof. apply estimate_cost_unknown_model; reflexivity. Defined.

(** ** The configuration store *)

Lemma bind_Return {A B} (c : M A) (k : A -> M B) (m m' : machine) (a : A) :
  c m = (m', Return a) -> bind c k m = k a m'.
Proof. unfold bind. now intros ->. Qed.

Lemma bind_Raise {A B} (c : M A) (k : A -> M B) (m m' : machine) (e : exn) :
  c m = (m', Raise e) -> bind c k m = (m', Raise e).
Proof. unfold bind. now intros ->. Qed.

Lemma json_dump_writable (config : value) (m : machine) :
  writable m = true ->
  json_dump config m =
    (logged [FileWrite config]
       (with_file {| readable := match config_file m with
                                 | Some f => readable f
                                 | None => true
                                 end;
                     data := Json config |} m),
     Return tt).
Proof. unfold json_dump. now intros ->. Qed.

Lemma json_dump_not_writable (config : value) (m : machine) :
  writable m = false -> json_dump config m = (m, Raise OSError).
Proof. unfold json_dump. now intros ->. Qed.

(** The existing record as [_save_model_to_config] sees it, case by case. *)

Lemma save_missing (m : machine) :
  config_file m = None ->
  _save_model_to_config m = json_dump (VDict (owned_fields (self m) ∅)) m.
Proof.
  intros H. destruct m as [c cf w i l]; cbn in H; subst. reflexivity.
Qed.

Lemma save_unreadable (m : machine) (f : file) :
  config_file m = Some f -> readable f = false ->
  _save_model_to_config m = json_dump (VDict (owned_fields (self m) ∅)) m.
Proof.
  intros H Hr.
  destruct m as [c cf w i l], f as [r dat]; cbn in H, Hr; subst. reflexivity.
Qed.

Lemma save_garbled (m : machine) (f : file) :
  config_file m = Some f -> readable f = true -> data f = Garbled ->
  _save_model_to_config m = json_dump (VDict (owned_fields (self m) ∅)) m.
Proof.
  intros H Hr Hd.
  destruct m as [c cf w i l], f as [r dat]; cbn in H, Hr, Hd; subst. reflexivity.
Qed.

Lemma save_undecodable (m : machine) (f : file) :
  config_file m = Some f -> readable f = true -> data f = Undecodable ->
  _save_model_to_config m = (m, Raise UnicodeDecodeError).
Proof.
  intros H Hr Hd.
  destruct m as [c cf w i l], f as [r dat]; cbn in H, Hr, Hd; subst. reflexivity.
Qed.

Lemma save_uncaught (m : machine) (f : file) (e : exn) :
  config_file m = Some f -> readable f = true -> uncaught (data f) = Some e ->
  _save_model_to_config m = (m, Raise e).
Proof.
  intros H Hr Hd.
  destruct m as [c cf w i l], f as [r dat]; cbn in H, Hr, Hd; subst.
  destruct dat; try discriminate; injection Hd as <-; reflexivity.
Qed.

Lemma save_dict (m : machine) (f : file) (d : gmap string value) :
  config_file m = Some f -> readable f = true -> data f = Json (VDict d) ->
  _save_model_to_config m = json_dump (VDict (owned_fields (self m) d)) m.
Proof.
  intros H Hr Hd.
  destruct m as [c cf w i l], f as [r dat]; cbn in H, Hr, Hd; subst. reflexivity.
Qed.

Lemma save_not_dict (m : machine) (f : file) (v : value) :
  config_file m = Some f -> readable f = true -> data f = Json v ->
  (forall d, v <> VDict d) ->
  _save_model_to_config m = (m, Raise TypeError).
Proof.
  intros H Hr Hd Hv.
  destruct m as [c cf w i l], f as [r dat]; cbn in H, Hr, Hd; subst.
  destruct v; try reflexivity. now destruct (Hv d).
Qed.

Lemma owned_fields_lookup_other (c : client) (d : gmap string value) (key : string) :
  key <> "model" -> key <> "default_max_tokens" ->
  owned_fields c d !! key = d !! key.
Proof.
  intros H1 H2. unfold owned_fields.
  rewrite lookup_insert_ne by congruence. now rewrite lookup_insert_ne by congruence.
Qed.

Lemma owned_fields_lookup_model (c : client) (d : gmap string value) :
  owned_fields c d !! "model" = Some (model c).
Proof.
  unfold owned_fields.
  rewrite lookup_insert_ne by discriminate. apply lookup_insert_eq.
Qed.

Lemma owned_fields_lookup_max_tokens (c : client) (d : gmap string value) :
  owned_fields c d !! "default_max_tokens" = Some (default_max_tokens c).
Proof. unfold owned_fields. apply lookup_insert_eq. Qed.

(** What [_load_model_from_config] returns, case by case. *)

Lemma load_missing (m : machine) :
  config_file m = None ->
  _load_model_from_config m = (m, Return (VNone, VNone)).
Proof.
  intros H. destruct m as [c cf w i l]; cbn in H; subst. reflexivity.
Qed.

Lemma load_unreadable (m : machine) (f : file) :
  config_file m = Some f -> readable f = false ->
  _load_model_from_config m =
    (logged [PrintConfigWarning OSError] m, Return (VNone, VNone)).
Proof.
  intros H Hr.
  destruct m as [c cf w i l], f as [r dat]; cbn in H, Hr; subst. reflexivity.
Qed.

Lemma load_garbled (m : machine) (f : file) :
  config_file m = Some f -> readable f = true -> data f = Garbled ->
  _load_model_from_config m =
    (logged [PrintConfigWarning JSONDecodeError] m, Return (VNone, VNone)).
Proof.
  intros H Hr Hd.
  destruct m as [c cf w i l], f as [r dat]; cbn in H, Hr, Hd; subst. reflexivity.
Qed.

Lemma load_undecodable (m : machine) (f : file) :
  config_file m = Some f -> readable f = true -> data f = Undecodable ->
  _load_model_from_config m = (m, Raise UnicodeDecodeError).
Proof.
  intros H Hr Hd.
  destruct m as [c cf w i l], f as [r dat]; cbn in H, Hr, Hd; subst. reflexivity.
Qed.

Lemma load_uncaught (m : machine) (f : file) (e : exn) :
  config_file m = Some f -> readable f = true -> uncaught (data f) = Some e ->
  _load_model_from_config m = (m, Raise e).
Proof.
  intros H Hr Hd.
  destruct m as [c cf w i l], f as [r dat]; cbn in H, Hr, Hd; subst.
  destruct dat; try discriminate; injection Hd as <-; reflexivity.
Qed.

Lemma load_not_dict (m : machine) (f : file) (v : value) :
  config_file m = Some f -> readable f = true -> data f = Json v ->
  (forall d, v <> VDict d) ->
  _load_model_from_config m = (m, Raise AttributeError).
Proof.
  intros H Hr Hd Hv.
  destruct m as [c cf w i l], f as [r dat]; cbn in H, Hr, Hd; subst.
  destruct v; try reflexivity. now destruct (Hv d).
Qed.

Lemma load_dict (m : machine) (f : file) (d : gmap string value) :
  config_file m = Some f -> readable f = true -> data f = Json (VDict d) ->
  _load_model_from_config m =
    (m, match py_get (default (VDict ∅) (d !! "llm")) "default_max_tokens" VNone with
        | Return max_tokens => Return (default VNone (d !! "model"), max_tokens)
        | Raise e => Raise e
        end).
Proof.
  intros H Hr Hd.
  destruct m as [c cf w i l], f as [r dat]; cbn in H, Hr, Hd; subst.
  unfold _load_model_from_config, bind, path_exists, try_except, json_load, lift, ret,
    py_get; cbn [config_file readable data negb].
  destruct (d !! "llm") as [llm|]; cbn [default]; [destruct llm|]; reflexivity.
Qed.

(** The max-tokens value that [_load_model_from_config] finds is the one
    under [llm], which [_save_model_to_config] never writes: on a record
    that is a dictionary, a save leaves the loaded max-tokens value as it
    was before. *)
Lemma save_keeps_loaded_max_tokens (m : machine) (f : file) (d : gmap string value) :
  config_file m = Some f -> readable f = true -> data f = Json (VDict d) ->
  writable m = true ->
  forall (mdl t : value),
    snd (_load_model_from_config m) = Return (mdl, t) ->
    snd ((_save_model_to_config ;; _load_model_from_config) m)
      = Return (model (self m), t).
Proof.
  intros H Hr Hd Hw mdl t Hload.
  rewrite (load_dict m f d H Hr Hd) in Hload. cbn [snd] in Hload.
  erewrite bind_Return
    by (rewrite (save_dict m f d H Hr Hd); now apply json_dump_writable).
  erewrite load_dict; [| reflexivity | cbn; now rewrite H | reflexivity].
  cbn [snd].
  rewrite owned_fields_lookup_model, owned_fields_lookup_other by discriminate.
  destruct (py_get (default (VDict ∅) (d !! "llm")) "default_max_tokens" VNone);
    [|discriminate].
  cbn [default]. injection Hload as _ <-. reflexivity.
Qed.

Lemma save_then_load_fresh (m : machine) :
  config_file m = None -> writable m = true ->
  snd ((_save_model_to_config ;; _load_model_from_config) m)
    = Return (model (self m), VNone).
Proof.
  intros H Hw.
  erewrite bind_Return by (rewrite (save_missing m H); now apply json_dump_writable).
  erewrite load_dict; [| reflexivity | cbn; now rewrite H | reflexivity].
  cbn [snd].
  rewrite owned_fields_lookup_model, owned_fields_lookup_other by discriminate.
  reflexivity.
Qed.

(** C1 (the code departs from it). Save the valid preference
    [claude-sonnet-4-5], 2048 in a fresh environment and load: the model
    comes back, the max-tokens value does not. The record written is
    [{model, default_max_tokens}], both at the top level, and the load looks
    for [default_max_tokens] under [llm]. *)
Theorem round_trip_loses_max_tokens :
  let p := {| model := VStr SONNET_MODEL; default_max_tokens := VInt 2048 |} in
  let m := with_self p (fresh []) in
  snd ((_save_model_to_config ;; _load_model_from_config) m)
    = Return (VStr SONNET_MODEL, VNone) /\
  VNone <> default_max_tokens p /\
  writes (log (fst (_save_model_to_config m)))
    = [VDict (<["default_max_tokens" := VInt 2048]>
                (<["model" := VStr "claude-sonnet-4-5"]> ∅))].
Proof.
  cbv zeta. split; [|split].
  - now rewrite save_then_load_fresh.
  - discriminate.
  - reflexivity.
Qed.

Lemma writes_logged (evs : list event) (m : machine) :
  writes (log (logged evs m)) = (writes (log m) ++ writes evs)%list.
Proof. unfold writes, logged; cbn [log]. apply omap_app. Qed.

(** What a save leaves behind: either one write of the merged record, or an
    exception and the machine as it was. *)
Lemma save_summary (m : machine) :
  match snd (_save_model_to_config m) with
  | Return _ =>
      exists d : gmap string value,
        fst (_save_model_to_config m) =
          logged [FileWrite (VDict (owned_fields (self m) d))]
            (with_file {| readable := match config_file m with
                                      | Some f => readable f
                                      | None => true
                                      end;
                          data := Json (VDict (owned_fields (self m) d)) |} m)
  | Raise _ => fst (_save_model_to_config m) = m
  end.
Proof.
  assert ((exists d, _save_model_to_config m
                     = json_dump (VDict (owned_fields (self m) d)) m)
          \/ (exists e, _save_model_to_config m = (m, Raise e))) as [[d E]|[e E]].
  { destruct (config_file m) as [f|] eqn:H.
    - destruct (readable f) eqn:Hr.
      + destruct (data f) as [| |n| |v] eqn:Hd.
        * right. eexists. apply (save_uncaught m f); [easy.. | now rewrite Hd].
        * left. eexists. now apply (save_garbled m f).
        * right. eexists. apply (save_uncaught m f); [easy.. | now rewrite Hd].
        * right. eexists. apply (save_uncaught m f); [easy.. | now rewrite Hd].
        * destruct v;
            try (right; eexists; now apply (save_not_dict m f _ H Hr Hd)).
          left. exists d. exact (save_dict m f d H Hr Hd).
      + left. eexists. now apply (save_unreadable m f).
    - left. eexists. now apply save_missing. }
  - rewrite E. destruct (writable m) eqn:Hw.
    + rewrite json_dump_writable by assumption. cbn [fst snd]. now exists d.
    + rewrite json_dump_not_writable by assumption. reflexivity.
  - rewrite E. reflexivity.
Qed.

Lemma save_self (m : machine) :
  self (fst (_save_model_to_config m)) = self m.
Proof.
  pose proof (save_summary m) as H.
  destruct (snd (_save_model_to_config m)); [destruct H as [d ->] | rewrite H];
    reflexivity.
Qed.

(** C3. On a persisted record that parses as a JSON object, a save leaves
    every top-level key other than the two it writes ([model] and
    [default_max_tokens]) present with its value, whether or not the write
    succeeds; when the file can be written, the save succeeds and the new
    record is the old one with those two keys set. *)
Theorem save_preserves_unrelated_keys (m : machine) (f : file) (d : gmap string value) :
  config_file m = Some f -> readable f = true -> data f = Json (VDict d) ->
  exists d' : gmap string value,
    config_file (fst (_save_model_to_config m))
      = Some {| readable := true; data := Json (VDict d') |} /\
    (forall key : string,
        key <> "model" -> key <> "default_max_tokens" -> d' !! key = d !! key) /\
    (writable m = true ->
       snd (_save_model_to_config m) = Return tt /\
       d' = <["default_max_tokens" := default_max_tokens (self m)]>
              (<["model" := model (self m)]> d)).
Proof.
  intros H Hr Hd. rewrite (save_dict m f d H Hr Hd).
  destruct (writable m) eqn:Hw.
  - rewrite json_dump_writable by assumption. rewrite H, Hr.
    exists (owned_fields (self m) d). split; [reflexivity|]. split.
    + intros key. apply owned_fields_lookup_other.
    + intros _. split; reflexivity.
  - rewrite json_dump_not_writable by assumption. cbn [fst snd].
    exists d. split; [|split; [reflexivity | discriminate]].
    rewrite H. destruct f as [r dat]; cbn in Hr, Hd; now subst.
Qed.

Lemma save_preserves_unrelated_keys_witness :
  let m := {| self := {| model := VStr "x"; default_max_tokens := VInt 2048 |};
              config_file :=
                Some {| readable := true;
                        data := Json (VDict (<["other" := VInt 1]> ∅)) |};
              writable := true; stdin := []; log := [] |} in
  exists d' : gmap string value,
    config_file (fst (_save_model_to_config m))
      = Some {| readable := true; data := Json (VDict d') |} /\
    (forall key : string,
        key <> "model" -> key <> "default_max_tokens" ->
        d' !! key = (<["other" := VInt 1]> ∅ : gmap string value) !! key) /\
    (writable m = true ->
       snd (_save_model_to_config m) = Return tt /\
       d' = <["default_max_tokens" := VInt 2048]>
              (<["model" := VStr "x"]> (<["other" := VInt 1]> ∅))).
Proof.
  intros m.
  exact (save_preserves_unrelated_keys m _ _ eq_refl eq_refl eq_refl).
Defined.

(** The merge example of the specification: the key [other] survives. *)
Example save_keeps_other :
  let m := {| self := {| model := VStr "x"; default_max_tokens := VInt 2048 |};
              config_file :=
                Some {| readable := true;
                        data := Json (VDict (<["other" := VInt 1]> ∅)) |};
              writable := true; stdin := []; log := [] |} in
  config_file (fst (_save_model_to_config m))
    = Some {| readable := true;
              data := Json (VDict (<["default_max_tokens" := VInt 2048]>
                                     (<["model" := VStr "x"]>
                                        (<["other" := VInt 1]> ∅)))) |}.
Proof. reflexivity. Qed.

(** C10 as stated fails: a save does fail on an existing file whose
    content does not parse. Bytes that are not text make the read raise
    [UnicodeDecodeError], which the [except] clause does not catch, and the
    file stays as it was; and on text that is not JSON the save raises
    [OSError] when the file cannot be opened for writing. *)
Lemma save_fails_on_undecodable_file :
  let p := {| model := VStr OPUS_MODEL; default_max_tokens := VInt 4096 |} in
  let binary :=
    {| self := p; config_file := Some {| readable := true; data := Undecodable |};
       writable := true; stdin := []; log := [] |} in
  let locked :=
    {| self := p; config_file := Some {| readable := true; data := Garbled |};
       writable := false; stdin := []; log := [] |} in
  _save_model_to_config binary = (binary, Raise UnicodeDecodeError) /\
  _save_model_to_config locked = (locked, Raise OSError).
Proof. split; reflexivity. Qed.

(** C10, amended. When the config file exists and cannot be read
    ([IOError]), or its text is not JSON ([json.JSONDecodeError]), a save
    that can open the file for writing succeeds, prints nothing, and
    replaces the file by the record of the two written fields alone: nothing
    of the previous content is kept. *)
Theorem save_replaces_unparsable (m : machine) (f : file) :
  config_file m = Some f ->
  readable f = false \/ data f = Garbled ->
  writable m = true ->
  let config : gmap string value :=
    <["default_max_tokens" := default_max_tokens (self m)]>
      (<["model" := model (self m)]> ∅) in
  _save_model_to_config m =
    (logged [FileWrite (VDict config)]
       (with_file {| readable := readable f; data := Json (VDict config) |} m),
     Return tt) /\
  dom config = {["model"; "default_max_tokens"]}.
Proof.
  intros H Hbad Hw config. split.
  - assert (_save_model_to_config m
            = json_dump (VDict (owned_fields (self m) ∅)) m) as ->.
    { destruct (readable f) eqn:Hr.
      - destruct Hbad as [|Hd]; [discriminate|]. now apply (save_garbled m f).
      - now apply (save_unreadable m f). }
    rewrite json_dump_writable by assumption. now rewrite H.
  - unfold config. rewrite !dom_insert_L, dom_empty_L. set_solver.
Qed.

Lemma save_replaces_unparsable_witness :
  let m := {| self := {| model := VStr OPUS_MODEL; default_max_tokens := VInt 4096 |};
              config_file := Some {| readable := true; data := Garbled |};
              writable := true; stdin := []; log := [] |} in
  let config : gmap string value :=
    <["default_max_tokens" := VInt 4096]> (<["model" := VStr OPUS_MODEL]> ∅) in
  _save_model_to_config m =
    (logged [FileWrite (VDict config)]
       (with_file {| readable := true; data := Json (VDict config) |} m),
     Return tt) /\
  dom config = {["model"; "default_max_tokens"]}.
Proof.
  intros m.
  exact (save_replaces_unparsable m _ eq_refl (or_intror eq_refl) eq_refl).
Defined.

(** When the load finds nothing, [__init__] goes on to the selection
    prompt with both fields unresolved. *)
Lemma init_after_absent (m m' : machine) :
  _load_model_from_config m = (m', Return (VNone, VNone)) ->
  __init__ m = _prompt_model_selection (with_self no_client m').
Proof.
  intros H. unfold __init__. rewrite (bind_Return _ _ _ _ _ H). reflexivity.
Qed.

(** C9 as stated fails: with no config file the load returns the absent
    result and prints no warning. (Nor does every malformed content give
    the absent result: see [load_uncaught] and [load_not_dict].) *)
Lemma load_missing_file_is_silent :
  config_file (fresh []) = None /\
  snd (_load_model_from_config (fresh [])) = Return (VNone, VNone) /\
  ~ (exists e : exn,
        In (PrintConfigWarning e) (log (fst (_load_model_from_config (fresh []))))).
Proof.
  split; [reflexivity|]. split; [reflexivity|].
  intros [e []].
Qed.

(** C9, amended. A missing file, a file that cannot be read ([IOError])
    and a file whose text [json.load] rejects with [json.JSONDecodeError]
    each make the load return [(None, None)] without raising, and
    [__init__] continues into the selection prompt; the warning, naming the
    exception, is printed for the unreadable file and for the rejected
    text, and nothing is printed for the missing file. *)
Theorem load_absent_cases (m : machine) :
  (config_file m = None ->
     _load_model_from_config m = (m, Return (VNone, VNone)) /\
     __init__ m = _prompt_model_selection (with_self no_client m)) /\
  (forall f : file,
     config_file m = Some f -> readable f = false ->
     let m' := logged [PrintConfigWarning OSError] m in
     _load_model_from_config m = (m', Return (VNone, VNone)) /\
     __init__ m = _prompt_model_selection (with_self no_client m')) /\
  (forall f : file,
     config_file m = Some f -> readable f = true -> data f = Garbled ->
     let m' := logged [PrintConfigWarning JSONDecodeError] m in
     _load_model_from_config m = (m', Return (VNone, VNone)) /\
     __init__ m = _prompt_model_selection (with_self no_client m')).
Proof.
  split; [|split].
  - intros H. pose proof (load_missing m H) as E.
    split; [exact E | exact (init_after_absent _ _ E)].
  - intros f H Hr m'. pose proof (load_unreadable m f H Hr) as E.
    split; [exact E | exact (init_after_absent _ _ E)].
  - intros f H Hr Hd m'. pose proof (load_garbled m f H Hr Hd) as E.
    split; [exact E | exact (init_after_absent _ _ E)].
Qed.

Lemma load_absent_cases_witness :
  let missing := fresh ["4"] in
  let locked := with_file {| readable := false; data := Garbled |} (fresh ["4"]) in
  let broken := with_file {| readable := true; data := Garbled |} (fresh ["4"]) in
  (_load_model_from_config missing = (missing, Return (VNone, VNone)) /\
   __init__ missing = _prompt_model_selection (with_self no_client missing)) /\
  (let m' := logged [PrintConfigWarning OSError] locked in
   _load_model_from_config locked = (m', Return (VNone, VNone)) /\
   __init__ locked = _prompt_model_selection (with_self no_client m')) /\
  (let m' := logged [PrintConfigWarning JSONDecodeError] broken in
   _load_model_from_config broken = (m', Return (VNone, VNone)) /\
   __init__ broken = _prompt_model_selection (with_self no_client m')).
Proof.
  intros missing locked broken. split; [|split].
  - exact (proj1 (load_absent_cases missing) eq_refl).
  - exact (proj1 (proj2 (load_absent_cases locked)) _ eq_refl eq_refl).
  - exact (proj2 (proj2 (load_absent_cases broken)) _ eq_refl eq_refl eq_refl).
Defined.

(** The load does raise on content that is JSON but not an object, and on
    an [llm] entry that is not an object: [get] is a method of [dict] only. *)
Example load_raises_on_a_list :
  snd (_load_model_from_config
         (with_file {| readable := true; data := Json (VList []) |} (fresh [])))
    = Raise AttributeError /\
  snd (_load_model_from_config
         (with_file {| readable := true;
                       data := Json (VDict (<["llm" := VNone]> ∅)) |} (fresh [])))
    = Raise AttributeError.
Proof. split; reflexivity. Qed.

(** ** [set_model] *)

Lemma valid_model_In (s : string) :
  existsb (String.eqb s) [HAIKU_MODEL; SONNET_MODEL; OPUS_MODEL] = true
  <-> In s [HAIKU_MODEL; SONNET_MODEL; OPUS_MODEL].
Proof.
  rewrite existsb_exists. split.
  - intros [x [Hx E]]. apply String.eqb_eq in E. now subst.
  - intros H. exists s. split; [exact H | apply String.eqb_refl].
Qed.

(** C6. [set_model] on a string that is not one of the three identifiers
    raises the [ValueError] of the invalid model and leaves the machine
    (client fields, file, log) as it was. On one of the three it sets the
    model field only, runs [_save_model_to_config] once on the updated
    client and then reports the change: when it returns, exactly one record
    was written, holding the new model and the max-tokens value carried
    over; when the save raises, nothing was written. *)
Theorem set_model_spec (new_model : string) (m : machine) :
  let valid_models := [HAIKU_MODEL; SONNET_MODEL; OPUS_MODEL] in
  (~ In new_model valid_models ->
     set_model new_model m =
       (m, Raise (ValueError (invalid_model_message new_model valid_models)))) /\
  (In new_model valid_models ->
     let m1 := with_self {| model := VStr new_model;
                            default_max_tokens := default_max_tokens (self m) |} m in
     let m' := fst (set_model new_model m) in
     set_model new_model m =
       (_save_model_to_config ;; print (PrintModelChanged (VStr new_model))) m1 /\
     self m' = self m1 /\
     match snd (set_model new_model m) with
     | Return _ =>
         exists d : gmap string value,
           writes (log m') = (writes (log m) ++ [VDict d])%list /\
           option_map data (config_file m') = Some (Json (VDict d)) /\
           d !! "model" = Some (VStr new_model) /\
           d !! "default_max_tokens" = Some (default_max_tokens (self m))
     | Raise _ => log m' = log m /\ config_file m' = config_file m
     end).
Proof.
  intros valid_models. subst valid_models. split.
  - intros Hin. unfold set_model. cbv zeta.
    destruct (existsb (String.eqb new_model) [HAIKU_MODEL; SONNET_MODEL; OPUS_MODEL])
      eqn:E; [|reflexivity].
    apply valid_model_In in E. contradiction.
  - intros Hin m1 m'.
    assert (set_model new_model m =
              (_save_model_to_config ;; print (PrintModelChanged (VStr new_model))) m1)
      as Eq.
    { apply valid_model_In in Hin. unfold set_model. cbv zeta. rewrite Hin.
      cbn [negb]. unfold assign_model, bind at 1 2, get_self, set_self. fold m1.
      unfold bind. pose proof (save_self m1) as Hs.
      destruct (_save_model_to_config m1) as [m2 [[]|e]]; [|reflexivity].
      cbn [fst] in Hs. unfold get_self. now rewrite Hs. }
    split; [exact Eq|]. subst m'. rewrite Eq. unfold bind.
    pose proof (save_summary m1) as Hsum. pose proof (save_self m1) as Hs.
    destruct (_save_model_to_config m1) as [m2 [[]|e]]; cbn [fst snd] in *.
    + split; [exact Hs|]. destruct Hsum as [d ->].
      exists (owned_fields (self m1) d). split; [|split; [|split]].
      * unfold print. cbn [fst]. rewrite !writes_logged.
        cbn [writes omap list_omap]. rewrite app_nil_r. reflexivity.
      * reflexivity.
      * exact (owned_fields_lookup_model (self m1) d).
      * exact (owned_fields_lookup_max_tokens (self m1) d).
    + split; [exact Hs|]. now subst m2.
Qed.

Lemma set_model_spec_witness :
  let valid_models := [HAIKU_MODEL; SONNET_MODEL; OPUS_MODEL] in
  let m := with_self {| model := VStr SONNET_MODEL; default_max_tokens := VInt 4096 |}
             (fresh []) in
  set_model "gpt-4" m = (m, Raise (ValueError (invalid_model_message "gpt-4" valid_models)))
  /\
  (let m1 := with_self {| model := VStr "claude-opus-4-5";
                          default_max_tokens := default_max_tokens (self m) |} m in
   let m' := fst (set_model "claude-opus-4-5" m) in
   set_model "claude-opus-4-5" m =
     (_save_model_to_config ;; print (PrintModelChanged (VStr "claude-opus-4-5"))) m1 /\
   self m' = self m1 /\
   match snd (set_model "claude-opus-4-5" m) with
   | Return _ =>
       exists d : gmap string value,
         writes (log m') = (writes (log m) ++ [VDict d])%list /\
         option_map data (config_file m') = Some (Json (VDict d)) /\
         d !! "model" = Some (VStr "claude-opus-4-5") /\
         d !! "default_max_tokens" = Some (default_max_tokens (self m))
   | Raise _ => log m' = log m /\ config_file m' = config_file m
   end).
Proof.
  intros valid_models m. split.
  - apply (proj1 (set_model_spec "gpt-4" m)).
    intros [H|[H|[H|[]]]]; discriminate H.
  - apply (proj2 (set_model_spec "claude-opus-4-5" m)).
    right; right; left; reflexivity.
Defined.

(** ** The selection flow *)

Lemma printed_inv {A} (evs0 : list event) (r : loop_result A)
      (evs : list event) (rest : list string) (o : outcome A) :
  printed evs0 r = (evs, rest, o) ->
  exists evs', r = (evs', rest, o) /\ evs = (evs0 ++ evs')%list.
Proof.
  destruct r as [[evs' rest'] o']. cbn. intros [= <- <- <-]. now exists evs'.
Qed.

Lemma model_loop_valid (lines : list string) (evs : list event) (rest : list string)
      (mdl : string) :
  model_loop lines = (evs, rest, Return mdl) ->
  In mdl [HAIKU_MODEL; SONNET_MODEL; OPUS_MODEL].
Proof.
  revert evs. induction lines as [|line lines IH]; intros evs; cbn [model_loop].
  - discriminate.
  - destruct (String.eqb (strip line) "1"); [intros [= _ _ <-]; cbn; auto|].
    destruct (String.eqb (strip line) "2"); [intros [= _ _ <-]; cbn; auto|].
    destruct (String.eqb (strip line) "3"); [intros [= _ _ <-]; cbn; auto|].
    destruct (String.eqb (strip line) "4"); [discriminate|].
    intros H. apply printed_inv in H as [evs' [H _]]. eauto.
Qed.

(** Choice 5 of the max-tokens menu, by the value entered. *)

Lemma custom_out_of_range (L : Z) (model text : string) (rest : list string) (custom : Z) :
  parse_int (strip text) = Some custom ->
  custom < 1 \/ L < custom ->
  max_tokens_loop L model ("5" :: text :: rest) =
    printed [PrintTokensMenu L; PrintRangeError L] (max_tokens_loop L model rest).
Proof.
  intros Hp Hr. cbn [max_tokens_loop].
  change (strip "5") with "5". cbn [String.eqb Ascii.eqb Bool.eqb].
  rewrite Hp.
  replace ((1 <=? custom) && (custom <=? L))%Z with false; [reflexivity|].
  symmetry. apply andb_false_iff. rewrite !Z.leb_gt. lia.
Qed.

Lemma custom_low_cost (L : Z) (model text : string) (rest : list string) (custom : Z) :
  parse_int (strip text) = Some custom ->
  1 <= custom <= L -> custom <= 10000 ->
  max_tokens_loop L model ("5" :: text :: rest) =
    ([PrintTokensMenu L], rest, Return custom).
Proof.
  intros Hp Hr Hc. cbn [max_tokens_loop].
  change (strip "5") with "5". cbn [String.eqb Ascii.eqb Bool.eqb].
  rewrite Hp.
  replace ((1 <=? custom) && (custom <=? L))%Z with true
    by (symmetry; apply andb_true_iff; rewrite !Z.leb_le; lia).
  replace (10000 <? custom)%Z with false by (symmetry; apply Z.ltb_ge; lia).
  reflexivity.
Qed.

Lemma custom_high_cost (L : Z) (model text : string) (rest : list string)
      (custom : Z) (cost : float) :
  parse_int (strip text) = Some custom ->
  1 <= custom <= L -> 10000 < custom ->
  estimate_cost custom custom model = Return cost ->
  max_tokens_loop L model ("5" :: text :: rest) =
    match rest with
    | [] =>
        ([PrintTokensMenu L; PrintHighCostWarning; PrintQueryCost cost], [],
         Raise EOFError)
    | answer :: rest' =>
        if String.eqb (lower (strip answer)) "y"
        then ([PrintTokensMenu L; PrintHighCostWarning; PrintQueryCost cost], rest',
              Return custom)
        else printed [PrintTokensMenu L; PrintHighCostWarning; PrintQueryCost cost]
               (max_tokens_loop L model rest')
    end.
Proof.
  intros Hp Hr Hc He. cbn [max_tokens_loop].
  change (strip "5") with "5". cbn [String.eqb Ascii.eqb Bool.eqb].
  rewrite Hp.
  replace ((1 <=? custom) && (custom <=? L))%Z with true
    by (symmetry; apply andb_true_iff; rewrite !Z.leb_le; lia).
  replace (10000 <? custom)%Z with true by (symmetry; apply Z.ltb_lt; lia).
  rewrite He. destruct rest as [|answer rest']; [reflexivity|].
  now destruct (String.eqb (lower (strip answer)) "y").
Qed.


Lemma estimate_cost_valid_model (i o : Z) (model : string) :
  In model [HAIKU_MODEL; SONNET_MODEL; OPUS_MODEL] ->
  0 <= i < 2 ^ 1000 -> 0 <= o < 2 ^ 1000 ->
  exists cost : float, estimate_cost i o model = Return cost.
Proof.
  intros Hin Hi Ho.
  assert (exists f, classify model = Some f) as [f Hf]
    by (destruct Hin as [<-|[<-|[<-|[]]]]; eexists; reflexivity).
  rewrite (classify_estimate_cost i o model f Hf).
  rewrite (cost_formula_below_bound i o f Hi Ho). eauto.
Qed.

(** Whatever is typed, a value the max-tokens loop returns lies between 1
    and the limit, provided the largest preset does. *)
Lemma max_tokens_loop_range (L : Z) (model : string) :
  8192 <= L ->
  forall (lines : list string) (evs : list event) (rest : list string) (n : Z),
    max_tokens_loop L model lines = (evs, rest, Return n) -> 1 <= n <= L.
Proof.
  intros HL lines.
  remember (length lines) as k eqn:Hk.
  assert (length lines <= k)%nat as Hlen by lia. clear Hk.
  revert lines Hlen.
  induction k as [|k IH]; intros lines Hlen evs rest n.
  - destruct lines; [|cbn in Hlen; lia]. discriminate.
  - destruct lines as [|line lines]; [discriminate|].
    cbn [length] in Hlen. cbn [max_tokens_loop].
    destruct (String.eqb (strip line) "1"); [intros [= _ _ <-]; lia|].
    destruct (String.eqb (strip line) "2"); [intros [= _ _ <-]; lia|].
    destruct (String.eqb (strip line) "3"); [intros [= _ _ <-]; lia|].
    destruct (String.eqb (strip line) "4"); [intros [= _ _ <-]; lia|].
    destruct (String.eqb (strip line) "5").
    + destruct lines as [|line2 lines]; [discriminate|]. cbn [length] in Hlen.
      destruct (parse_int (strip line2)) as [custom|].
      * destruct ((1 <=? custom) && (custom <=? L))%Z eqn:Hr.
        -- apply andb_true_iff in Hr as [H1 H2].
           apply Z.leb_le in H1. apply Z.leb_le in H2.
           destruct (10000 <? custom)%Z; [|intros [= _ _ <-]; lia].
           destruct (estimate_cost custom custom model) as [cost|e].
           ++ destruct lines as [|line3 lines]; [discriminate|]. cbn [length] in Hlen.
              destruct (negb _); [|intros [= _ _ <-]; lia].
              intros H. apply printed_inv in H as [evs' [H _]].
              apply (IH lines) in H; [exact H | lia].
           ++ destruct e; try discriminate.
              intros H. apply printed_inv in H as [evs' [H _]].
              apply (IH lines) in H; [exact H | lia].
        -- intros H. apply printed_inv in H as [evs' [H _]].
           apply (IH lines) in H; [exact H | lia].
      * intros H. apply printed_inv in H as [evs' [H _]].
        apply (IH lines) in H; [exact H | lia].
    + intros H. apply printed_inv in H as [evs' [H _]].
      apply (IH lines) in H; [exact H | lia].
Qed.

Lemma context_limit_valid_model (m : machine) (mdl : string) :
  model (self m) = VStr mdl ->
  In mdl [HAIKU_MODEL; SONNET_MODEL; OPUS_MODEL] ->
  _get_context_limit m = (m, Return 200000).
Proof.
  intros Hm Hin. unfold _get_context_limit, bind, get_self. rewrite Hm.
  destruct Hin as [<-|[<-|[<-|[]]]]; reflexivity.
Qed.

(** What a completed [_prompt_model_selection] leaves in the client. *)
Lemma prompt_commits_valid (m m' : machine) :
  _prompt_model_selection m = (m', Return tt) ->
  exists (mdl : string) (n : Z),
    self m' = {| model := VStr mdl; default_max_tokens := VInt n |} /\
    In mdl [HAIKU_MODEL; SONNET_MODEL; OPUS_MODEL] /\
    _get_context_limit m' = (m', Return 200000) /\
    1 <= n <= 200000 /\
    exists d : gmap string value,
      option_map data (config_file m') = Some (Json (VDict d)) /\
      d !! "model" = Some (VStr mdl) /\
      d !! "default_max_tokens" = Some (VInt n).
Proof.
  unfold _prompt_model_selection.
  unfold bind at 1, print at 1.
  unfold bind at 1, console at 1.
  destruct (model_loop _) as [[evs1 rest1] [mdl|e]] eqn:E1; [|discriminate].
  apply model_loop_valid in E1.
  unfold bind at 1, assign_model at 1, bind at 1, get_self at 1, set_self at 1.
  unfold bind at 1.
  match goal with |- context [_get_context_limit ?x] => set (m2 := x) end.
  rewrite (context_limit_valid_model m2 mdl eq_refl E1).
  unfold bind at 1, print at 1.
  unfold bind at 1, console at 1.
  destruct (max_tokens_loop _ _ _) as [[evs2 rest2] [n|e]] eqn:E2; [|discriminate].
  apply max_tokens_loop_range in E2; [|lia].
  unfold bind at 1, assign_default_max_tokens at 1, bind at 1, get_self at 1,
    set_self at 1.
  unfold bind at 1.
  match goal with |- context [_save_model_to_config ?x] => set (m3 := x) end.
  pose proof (save_summary m3) as Hsum.
  destruct (_save_model_to_config m3) as [m4 [[]|e]]; [|discriminate].
  cbn [fst snd] in Hsum. destruct Hsum as [d ->].
  unfold bind, get_self, print. intros [= <-].
  exists mdl, n. split; [reflexivity|]. split; [exact E1|].
  split; [now apply (context_limit_valid_model _ mdl)|]. split; [exact E2|].
  exists (owned_fields (self m3) d). split; [reflexivity|].
  split; [exact (owned_fields_lookup_model (self m3) d)
         | exact (owned_fields_lookup_max_tokens (self m3) d)].
Qed.

(** C7. In the max-tokens loop a custom value equal to the limit passes
    the range check: it is committed at once when the limit is at most
    10000, and after the high-cost confirmation otherwise (the limit of the
    three models is 200000; the value must be one that can be priced, as
    every value below 2^1000 is). The limit plus one and the value 0 are rejected
    with the range error and the loop is entered again on the remaining
    input. Hence a completed selection leaves a known model and a max-tokens
    value between 1 and the context limit of that model, in the client and
    in the record written. *)
Theorem max_tokens_boundary :
  (forall (L : Z) (model text : string) (rest : list string),
      parse_int (strip text) = Some L -> 1 <= L <= 10000 ->
      max_tokens_loop L model ("5" :: text :: rest)
        = ([PrintTokensMenu L], rest, Return L)) /\
  (forall (L : Z) (model text answer : string) (rest : list string),
      In model [HAIKU_MODEL; SONNET_MODEL; OPUS_MODEL] ->
      parse_int (strip text) = Some L -> 10000 < L -> L < 2 ^ 1000 ->
      lower (strip answer) = "y" ->
      exists cost : float,
        max_tokens_loop L model ("5" :: text :: answer :: rest)
          = ([PrintTokensMenu L; PrintHighCostWarning; PrintQueryCost cost], rest,
             Return L)) /\
  (forall (L : Z) (model text : string) (rest : list string),
      parse_int (strip text) = Some (L + 1) ->
      max_tokens_loop L model ("5" :: text :: rest)
        = printed [PrintTokensMenu L; PrintRangeError L]
            (max_tokens_loop L model rest)) /\
  (forall (L : Z) (model text : string) (rest : list string),
      parse_int (strip text) = Some 0 ->
      max_tokens_loop L model ("5" :: text :: rest)
        = printed [PrintTokensMenu L; PrintRangeError L]
            (max_tokens_loop L model rest)) /\
  (forall m m' : machine,
      _prompt_model_selection m = (m', Return tt) ->
      exists (mdl : string) (n L : Z),
        self m' = {| model := VStr mdl; default_max_tokens := VInt n |} /\
        In mdl [HAIKU_MODEL; SONNET_MODEL; OPUS_MODEL] /\
        _get_context_limit m' = (m', Return L) /\
        1 <= n <= L /\
        exists d : gmap string value,
          option_map data (config_file m') = Some (Json (VDict d)) /\
          d !! "model" = Some (VStr mdl) /\
          d !! "default_max_tokens" = Some (VInt n)).
Proof.
  split; [|split; [|split; [|split]]].
  - intros L model text rest Hp HL. apply custom_low_cost; [exact Hp | lia | lia].
  - intros L model text answer rest Hin Hp HL Hup Hy.
    destruct (estimate_cost_valid_model L L model Hin) as [cost Hf]; [lia..|].
    exists cost.
    rewrite (custom_high_cost L model text _ L _ Hp ltac:(lia) HL Hf).
    rewrite Hy. reflexivity.
  - intros L model text rest Hp.
    apply (custom_out_of_range L model text rest (L + 1) Hp). lia.
  - intros L model text rest Hp.
    apply (custom_out_of_range L model text rest 0 Hp). lia.
  - intros m m' H.
    destruct (prompt_commits_valid m m' H) as (mdl & n & Hs & Hin & HL & Hn & Hd).
    exists mdl, n, 200000. auto.
Qed.

Lemma max_tokens_boundary_witness :
  max_tokens_loop 10000 "some-model" ["5"; "10000"; "1"]
    = ([PrintTokensMenu 10000], ["1"], Return 10000) /\
  (exists cost : float,
      max_tokens_loop 200000 SONNET_MODEL ["5"; "200000"; "y"; "1"]
        = ([PrintTokensMenu 200000; PrintHighCostWarning; PrintQueryCost cost], ["1"],
           Return 200000)) /\
  max_tokens_loop 200000 SONNET_MODEL ["5"; "200001"; "1"]
    = printed [PrintTokensMenu 200000; PrintRangeError 200000]
        (max_tokens_loop 200000 SONNET_MODEL ["1"]) /\
  max_tokens_loop 200000 SONNET_MODEL ["5"; "0"; "1"]
    = printed [PrintTokensMenu 200000; PrintRangeError 200000]
        (max_tokens_loop 200000 SONNET_MODEL ["1"]) /\
  (let m := fresh ["2"; "5"; "200000"; "y"] in
   let m' := fst (_prompt_model_selection m) in
   exists (mdl : string) (n L : Z),
     self m' = {| model := VStr mdl; default_max_tokens := VInt n |} /\
     In mdl [HAIKU_MODEL; SONNET_MODEL; OPUS_MODEL] /\
     _get_context_limit m' = (m', Return L) /\
     1 <= n <= L /\
     exists d : gmap string value,
       option_map data (config_file m') = Some (Json (VDict d)) /\
       d !! "model" = Some (VStr mdl) /\
       d !! "default_max_tokens" = Some (VInt n)).
Proof.
  destruct max_tokens_boundary as (Hlow & Hhigh & Hover & Hzero & Hinv).
  split; [|split; [|split; [|split]]].
  - apply Hlow; [reflexivity | lia].
  - apply Hhigh; [right; left; reflexivity | reflexivity | lia | lia | reflexivity].
  - apply Hover. reflexivity.
  - apply Hzero. reflexivity.
  - intros m m'. apply (Hinv m m'). vm_compute. reflexivity.
Defined.




(** Declining the confirmation and running out of input: the model is
    set, the max-tokens field is still unset and nothing was written. *)
Example decline_leaves_max_tokens_unset :
  let r := _prompt_model_selection (fresh ["2"; "5"; "20000"; "n"]) in
  snd r = Raise EOFError /\
  self (fst r) = {| model := VStr SONNET_MODEL; default_max_tokens := VNone |} /\
  config_file (fst r) = None /\
  log (fst r) =
    [PrintSetupBanner; PrintModelMenu; PrintTokensBanner SONNET_MODEL 200000;
     PrintTokensMenu 200000; PrintHighCostWarning;
     PrintQueryCost (fadd (fmul (int_quotient 20000 1000000) SONNET_INPUT)
                          (fmul (int_quotient 20000 1000000) SONNET_OUTPUT));
     PrintTokensMenu 200000].
Proof. vm_compute. repeat split; reflexivity. Qed.

(** C2 (the code departs from it). A first run in a fresh environment that
    chooses model 2 ([claude-sonnet-4-5]) and preset 2 (2048) writes the record
    [{model: claude-sonnet-4-5, default_max_tokens: 2048}]: there is no
    [llm] object in it, and neither is there after a later [set_model]. The
    next start loads the model but no max-tokens value, and prompts again. *)
Theorem first_run_writes_flat_record :
  let m1 := fst (__init__ (fresh ["2"; "2"])) in
  let flat : gmap string value :=
    <["default_max_tokens" := VInt 2048]> (<["model" := VStr "claude-sonnet-4-5"]> ∅) in
  let nested : gmap string value :=
    <["llm" := VDict (<["default_max_tokens" := VInt 2048]> ∅)]>
      (<["model" := VStr "claude-sonnet-4-5"]> ∅) in
  snd (__init__ (fresh ["2"; "2"])) = Return tt /\
  self m1 = {| model := VStr "claude-sonnet-4-5"; default_max_tokens := VInt 2048 |} /\
  config_file m1 = Some {| readable := true; data := Json (VDict flat) |} /\
  flat <> nested /\
  flat !! "llm" = None /\
  writes (log (fst (set_model "claude-opus-4-5" m1)))
    = [VDict flat;
       VDict (<["default_max_tokens" := VInt 2048]>
                (<["model" := VStr "claude-opus-4-5"]> ∅))] /\
  snd (_load_model_from_config (restart [] m1))
    = Return (VStr "claude-sonnet-4-5", VNone) /\
  __init__ (restart [] m1)
    = (logged [PrintSetupBanner; PrintModelMenu]
         (with_self {| model := VStr "claude-sonnet-4-5"; default_max_tokens := VNone |}
            (restart [] m1)),
       Raise EOFError).
Proof.
  cbv zeta. repeat split; try (vm_compute; reflexivity).
  intros H. apply (f_equal (fun d : gmap string value => d !! "llm")) in H.
  vm_compute in H. discriminate H.
Qed.


(** * Further properties of the code *)

(** ** The console loops *)

Lemma writes_app (a b : list event) : writes (a ++ b) = (writes a ++ writes b)%list.
Proof. apply omap_app. Qed.

Lemma printed_eq {A} (evs0 : list event) (r : loop_result A) :
  printed evs0 r = ((evs0 ++ fst (fst r))%list, snd (fst r), snd r).
Proof. now destruct r as [[evs rest] o]. Qed.

(** What the model loop can end with: it writes nothing, and it raises
    only at the end of the input or on the quit choice. *)
Lemma model_loop_shape (lines : list string) :
  writes (fst (fst (model_loop lines))) = [] /\
  (forall e, snd (model_loop lines) = Raise e ->
     (e = EOFError /\ snd (fst (model_loop lines)) = []) \/ e = SystemExit 0) /\
  exists used, lines = (used ++ snd (fst (model_loop lines)))%list.
Proof.
  induction lines as [|line lines (IHw & IHe & used & IHu)]; cbn [model_loop].
  - split; [reflexivity|]. split; [intros e [= <-]; now left | now exists []].
  - destruct (String.eqb (strip line) "1");
      [split; [reflexivity|]; split; [discriminate | now exists [line]]|].
    destruct (String.eqb (strip line) "2");
      [split; [reflexivity|]; split; [discriminate | now exists [line]]|].
    destruct (String.eqb (strip line) "3");
      [split; [reflexivity|]; split; [discriminate | now exists [line]]|].
    destruct (String.eqb (strip line) "4");
      [split; [reflexivity|]; split; [intros e [= <-]; now right | now exists [line]]|].
    rewrite printed_eq. cbn [fst snd]. split; [|split].
    + rewrite writes_app, IHw. reflexivity.
    + exact IHe.
    + exists (line :: used). cbn. now rewrite <- IHu.
Qed.

(** The same for the max-tokens loop, which has no quit choice: whatever
    the model, it ends with a value or at the end of the input, unless the
    limit lets through a value so large that pricing it overflows. *)
Lemma max_tokens_loop_shape (L : Z) (model : string) (lines : list string) :
  writes (fst (fst (max_tokens_loop L model lines))) = [] /\
  (forall e, snd (max_tokens_loop L model lines) = Raise e ->
     (e = EOFError /\ snd (fst (max_tokens_loop L model lines)) = []) \/
     (e = OverflowError /\ 2 ^ 1000 <= L)) /\
  exists used, lines = (used ++ snd (fst (max_tokens_loop L model lines)))%list.
Proof.
  remember (length lines) as k eqn:Hk.
  assert (length lines <= k)%nat as Hlen by lia. clear Hk.
  revert lines Hlen.
  induction k as [|k IH]; intros lines Hlen.
  - destruct lines; [|cbn in Hlen; lia]. cbn.
    split; [reflexivity|]. split; [intros e [= <-]; now left | now exists []].
  - destruct lines as [|line lines].
    { cbn. split; [reflexivity|]. split; [intros e [= <-]; now left | now exists []]. }
    cbn [length] in Hlen.
    assert (forall evs0 tail pre,
               writes evs0 = [] -> (length tail <= k)%nat ->
               line :: lines = (pre ++ tail)%list ->
               let r := printed evs0 (max_tokens_loop L model tail) in
               writes (fst (fst r)) = [] /\
               (forall e, snd r = Raise e ->
                  (e = EOFError /\ snd (fst r) = []) \/
                  (e = OverflowError /\ 2 ^ 1000 <= L)) /\
               exists used, line :: lines = (used ++ snd (fst r))%list) as Hstep.
    { intros evs0 tail pre Hw Ht Hpre r. subst r.
      destruct (IH tail Ht) as (IHw & IHe & used & IHu).
      rewrite printed_eq. cbn [fst snd]. split; [|split].
      - rewrite writes_app, Hw, IHw. reflexivity.
      - exact IHe.
      - exists (pre ++ used)%list. rewrite <- app_assoc, <- IHu. exact Hpre. }
    cbn [max_tokens_loop].
    destruct (String.eqb (strip line) "1");
      [split; [reflexivity|]; split; [discriminate | now exists [line]]|].
    destruct (String.eqb (strip line) "2");
      [split; [reflexivity|]; split; [discriminate | now exists [line]]|].
    destruct (String.eqb (strip line) "3");
      [split; [reflexivity|]; split; [discriminate | now exists [line]]|].
    destruct (String.eqb (strip line) "4");
      [split; [reflexivity|]; split; [discriminate | now exists [line]]|].
    destruct (String.eqb (strip line) "5").
    + destruct lines as [|line2 lines].
      { split; [reflexivity|]. split; [intros e [= <-]; now left | now exists [line]]. }
      cbn [length] in Hlen.
      destruct (parse_int (strip line2)) as [custom|].
      * destruct ((1 <=? custom) && (custom <=? L))%Z eqn:Hr.
        -- destruct (10000 <? custom)%Z.
           ++ destruct (estimate_cost custom custom model) as [c|e] eqn:E.
              ** destruct lines as [|line3 lines].
                 { split; [reflexivity|].
                   split; [intros e [= <-]; now left | now exists [line; line2]]. }
                 cbn [length] in Hlen.
                 destruct (negb _).
                 --- apply (Hstep _ lines [line; line2; line3]);
                       [reflexivity | lia | reflexivity].
                 --- split; [reflexivity|].
                     split; [discriminate | now exists [line; line2; line3]].
              ** destruct (estimate_cost_raises _ _ _ _ E) as [[_ ->]|[-> Hbig]].
                 --- apply (Hstep _ lines [line; line2]);
                       [reflexivity | lia | reflexivity].
                 --- apply andb_true_iff in Hr as [H1 H2].
                     apply Z.leb_le in H1. apply Z.leb_le in H2.
                     split; [reflexivity|]. split; [|now exists [line; line2]].
                     intros e [= <-]. right. split; [reflexivity | lia].
           ++ split; [reflexivity|]. split; [discriminate | now exists [line; line2]].
        -- apply (Hstep _ lines [line; line2]); [reflexivity | lia | reflexivity].
      * apply (Hstep _ lines [line; line2]); [reflexivity | lia | reflexivity].
    + apply (Hstep _ lines [line]); [reflexivity | lia | reflexivity].
Qed.

Lemma model_loop_invalid (line : string) (rest : list string) :
  ~ In (strip line) ["1"; "2"; "3"; "4"] ->
  model_loop (line :: rest)
    = printed [PrintModelMenu; PrintInvalidModelChoice] (model_loop rest).
Proof.
  intros H. cbn [model_loop].
  destruct (String.eqb_spec (strip line) "1") as [E|_]; [destruct H; rewrite E; cbn; auto|].
  destruct (String.eqb_spec (strip line) "2") as [E|_]; [destruct H; rewrite E; cbn; auto|].
  destruct (String.eqb_spec (strip line) "3") as [E|_]; [destruct H; rewrite E; cbn; auto|].
  destruct (String.eqb_spec (strip line) "4") as [E|_]; [destruct H; rewrite E; cbn; auto|].
  reflexivity.
Qed.

Lemma max_tokens_loop_invalid (L : Z) (model line : string) (rest : list string) :
  ~ In (strip line) ["1"; "2"; "3"; "4"; "5"] ->
  max_tokens_loop L model (line :: rest)
    = printed [PrintTokensMenu L; PrintInvalidTokensChoice] (max_tokens_loop L model rest).
Proof.
  intros H. cbn [max_tokens_loop].
  destruct (String.eqb_spec (strip line) "1") as [E|_]; [destruct H; rewrite E; cbn; auto|].
  destruct (String.eqb_spec (strip line) "2") as [E|_]; [destruct H; rewrite E; cbn; auto|].
  destruct (String.eqb_spec (strip line) "3") as [E|_]; [destruct H; rewrite E; cbn; auto|].
  destruct (String.eqb_spec (strip line) "4") as [E|_]; [destruct H; rewrite E; cbn; auto|].
  destruct (String.eqb_spec (strip line) "5") as [E|_];
    [destruct H; rewrite E; cbn; auto 6|].
  reflexivity.
Qed.

Lemma printed_printed {A} (a b : list event) (r : loop_result A) :
  printed a (printed b r) = printed (a ++ b) r.
Proof. destruct r as [[evs rest] o]. cbn. now rewrite app_assoc. Qed.

Lemma printed_nil {A} (r : loop_result A) : printed [] r = r.
Proof. now destruct r as [[evs rest] o]. Qed.

(** X1. Both menus skip any run of lines that are not one of their
    choices, one line and one error message each, and go on with the line
    that follows; the input is never searched ahead or re-read. *)
Theorem menus_skip_invalid_lines (L : Z) (model : string) (bad rest : list string) :
  (Forall (fun line => ~ In (strip line) ["1"; "2"; "3"; "4"]) bad ->
   model_loop (bad ++ rest)
     = printed (concat (List.map (fun _ => [PrintModelMenu; PrintInvalidModelChoice]) bad))
         (model_loop rest)) /\
  (Forall (fun line => ~ In (strip line) ["1"; "2"; "3"; "4"; "5"]) bad ->
   max_tokens_loop L model (bad ++ rest)
     = printed (concat (List.map (fun _ => [PrintTokensMenu L; PrintInvalidTokensChoice])
                          bad))
         (max_tokens_loop L model rest)).
Proof.
  split; intros H; induction H as [|line bad Hline _ IH].
  - cbn. now rewrite printed_nil.
  - change ((line :: bad) ++ rest)%list with (line :: (bad ++ rest))%list.
    rewrite (model_loop_invalid _ _ Hline), IH, printed_printed. reflexivity.
  - cbn. now rewrite printed_nil.
  - change ((line :: bad) ++ rest)%list with (line :: (bad ++ rest))%list.
    rewrite (max_tokens_loop_invalid _ _ _ _ Hline), IH, printed_printed. reflexivity.
Qed.

Lemma menus_skip_invalid_lines_witness :
  model_loop (["0"; "yes"; ""] ++ ["3"; "2"])
    = printed (concat (List.map (fun _ => [PrintModelMenu; PrintInvalidModelChoice])
                         ["0"; "yes"; ""]))
        (model_loop ["3"; "2"]) /\
  max_tokens_loop 200000 OPUS_MODEL (["6"; "2048"] ++ ["2"])
    = printed (concat (List.map (fun _ => [PrintTokensMenu 200000; PrintInvalidTokensChoice])
                         ["6"; "2048"]))
        (max_tokens_loop 200000 OPUS_MODEL ["2"]).
Proof.
  split.
  - apply (proj1 (menus_skip_invalid_lines 200000 OPUS_MODEL ["0"; "yes"; ""] ["3"; "2"])).
    repeat constructor; cbn; intros H; repeat destruct H as [H|H]; discriminate H || exact H.
  - apply (proj2 (menus_skip_invalid_lines 200000 OPUS_MODEL ["6"; "2048"] ["2"])).
    repeat constructor; cbn; intros H; repeat destruct H as [H|H]; discriminate H || exact H.
Defined.

(** X2. The selection loops stop only on a choice or at the end of the
    input: the model loop raises nothing but [EOFError] (with no input left)
    and the [SystemExit 0] of the quit choice; the max-tokens loop, for any
    model string and any limit below 2^1000 (the limits of the program are
    10000 and 200000), raises nothing but [EOFError] (with no input left),
    and for a larger limit nothing else but the [OverflowError] of pricing a
    custom value; and each leaves a suffix of the lines it was given. *)
Theorem loops_stop_on_choice_or_end_of_input (L : Z) (model : string)
    (lines : list string) :
  (forall e, snd (model_loop lines) = Raise e ->
     (e = EOFError /\ snd (fst (model_loop lines)) = []) \/ e = SystemExit 0) /\
  (forall e, snd (max_tokens_loop L model lines) = Raise e ->
     (e = EOFError /\ snd (fst (max_tokens_loop L model lines)) = []) \/
     (e = OverflowError /\ 2 ^ 1000 <= L)) /\
  (L < 2 ^ 1000 ->
   forall e, snd (max_tokens_loop L model lines) = Raise e ->
     e = EOFError /\ snd (fst (max_tokens_loop L model lines)) = []) /\
  (exists used, lines = (used ++ snd (fst (model_loop lines)))%list) /\
  (exists used, lines = (used ++ snd (fst (max_tokens_loop L model lines)))%list).
Proof.
  destruct (model_loop_shape lines) as (_ & H1 & H2).
  destruct (max_tokens_loop_shape L model lines) as (_ & H3 & H4).
  split; [exact H1|]. split; [exact H3|]. split; [|split; [exact H2 | exact H4]].
  intros HL e He. destruct (H3 e He) as [H|[_ Hbig]]; [exact H | lia].
Qed.

Lemma loops_stop_on_choice_or_end_of_input_witness :
  ((EOFError = EOFError /\ snd (fst (model_loop ["x"; "y"])) = [])
   \/ EOFError = SystemExit 0) /\
  (EOFError = EOFError /\
   snd (fst (max_tokens_loop 10000 "local-model" ["5"; "abc"; "5"; "20000"])) = []).
Proof.
  split.
  - apply (proj1 (loops_stop_on_choice_or_end_of_input 0 "" ["x"; "y"])). reflexivity.
  - apply (proj1 (proj2 (proj2 (loops_stop_on_choice_or_end_of_input
                                  10000 "local-model" ["5"; "abc"; "5"; "20000"]))));
      [lia | reflexivity].
Defined.

(** ** The selection flow and the constructor *)

Lemma uncaught_cases (c : content) (e : exn) :
  uncaught c = Some e ->
  e = UnicodeDecodeError \/ (exists n, e = ValueError (int_limit_message n)) \/
  e = RecursionError.
Proof. destruct c; intros [= <-]; eauto. Qed.

Lemma save_raises (m : machine) (e : exn) :
  snd (_save_model_to_config m) = Raise e ->
  e = OSError \/ e = TypeError \/ e = UnicodeDecodeError \/
  (exists n, e = ValueError (int_limit_message n)) \/ e = RecursionError.
Proof.
  destruct (config_file m) as [f|] eqn:H.
  - destruct (readable f) eqn:Hr.
    + destruct (uncaught (data f)) as [e'|] eqn:Hu.
      { rewrite (save_uncaught m f e' H Hr Hu). intros [= <-].
        destruct (uncaught_cases _ _ Hu) as [->|[[n ->]| ->]]; eauto 6. }
      destruct (data f) as [| |n| |v] eqn:Hd; try discriminate Hu.
      * rewrite (save_garbled m f H Hr Hd). unfold json_dump.
        destruct (writable m); [discriminate | intros [= <-]; auto].
      * destruct v;
          try (rewrite (save_not_dict m f _ H Hr Hd) by discriminate;
               intros [= <-]; auto).
        rewrite (save_dict m f d H Hr Hd). unfold json_dump.
        destruct (writable m); [discriminate | intros [= <-]; auto].
    + rewrite (save_unreadable m f H Hr). unfold json_dump.
      destruct (writable m); [discriminate | intros [= <-]; auto].
  - rewrite (save_missing m H). unfold json_dump.
    destruct (writable m); [discriminate | intros [= <-]; auto].
Qed.

(** What a load can change and raise. *)
Lemma load_result (m : machine) :
  exists (m0 : machine) (r : outcome (value * value)),
    _load_model_from_config m = (m0, r) /\
    (forall e, r = Raise e ->
       e = AttributeError \/ e = UnicodeDecodeError \/
       (exists n, e = ValueError (int_limit_message n)) \/ e = RecursionError) /\
    (m0 = m \/
     exists e, m0 = logged [PrintConfigWarning e] m /\ r = Return (VNone, VNone)).
Proof.
  destruct (config_file m) as [f|] eqn:H.
  - destruct (readable f) eqn:Hr.
    + destruct (uncaught (data f)) as [e'|] eqn:Hu.
      { eexists _, _. split; [exact (load_uncaught m f e' H Hr Hu)|].
        split; [|now left]. intros e [= <-].
        destruct (uncaught_cases _ _ Hu) as [->|[[n ->]| ->]]; eauto 6. }
      destruct (data f) as [| |n| |v] eqn:Hd; try discriminate Hu.
      * eexists _, _. split; [exact (load_garbled m f H Hr Hd)|].
        split; [discriminate | right; eauto].
      * destruct v;
          try (eexists _, _;
               split; [exact (load_not_dict m f _ H Hr Hd ltac:(discriminate))|];
               split; [intros e [= <-]; auto | now left]).
        eexists _, _. split; [exact (load_dict m f d H Hr Hd)|]. split; [|now left].
        destruct (d !! "llm") as [[]|]; cbn; intros e [= <-]; auto.
    + eexists _, _. split; [exact (load_unreadable m f H Hr)|].
      split; [discriminate | right; eauto].
  - eexists _, _. split; [exact (load_missing m H)|]. split; [discriminate | now left].
Qed.

(** Project a field out of a machine built with the updaters. *)
Ltac machine_log :=
  cbn [log config_file self stdin writable logged with_stdin with_self with_file];
  rewrite ?writes_app;
  cbn [writes omap list_omap].

(** The writes and the exceptions of [_prompt_model_selection]. *)
Lemma prompt_result (m m' : machine) (r : outcome unit) :
  _prompt_model_selection m = (m', r) ->
  match r with
  | Return _ =>
      exists d : gmap string value,
        writes (log m') = (writes (log m) ++ [VDict d])%list /\
        option_map data (config_file m') = Some (Json (VDict d))
  | Raise e =>
      writes (log m') = writes (log m) /\
      config_file m' = config_file m /\
      (e = EOFError \/ (e = SystemExit 0 /\ self m' = self m) \/
       e = OSError \/ e = TypeError \/ e = UnicodeDecodeError \/
       (exists n, e = ValueError (int_limit_message n)) \/ e = RecursionError)
  end.
Proof.
  unfold _prompt_model_selection.
  unfold bind at 1, print at 1.
  unfold bind at 1, console at 1.
  pose proof (model_loop_shape (stdin (logged [PrintSetupBanner] m))) as (Hw1 & He1 & _).
  destruct (model_loop _) as [[evs1 rest1] [mdl|e]] eqn:E1; cbn [fst snd] in Hw1, He1.
  2:{ intros [= <- <-]. machine_log. rewrite Hw1, !app_nil_r.
      split; [reflexivity|]. split; [reflexivity|].
      destruct (He1 e eq_refl) as [[-> _]| ->]; auto. }
  apply model_loop_valid in E1.
  unfold bind at 1, assign_model at 1, bind at 1, get_self at 1, set_self at 1.
  unfold bind at 1.
  match goal with |- context [_get_context_limit ?x] => set (m2 := x) end.
  rewrite (context_limit_valid_model m2 mdl eq_refl E1).
  unfold bind at 1, print at 1.
  unfold bind at 1, console at 1.
  pose proof (max_tokens_loop_shape 200000 mdl
                (stdin (logged [PrintTokensBanner mdl 200000] m2))) as (Hw2 & He2 & _).
  destruct (max_tokens_loop _ _ _) as [[evs2 rest2] [n|e]] eqn:E2;
    cbn [fst snd] in Hw2, He2.
  2:{ intros [= <- <-]. subst m2. machine_log. rewrite Hw1, Hw2, !app_nil_r.
      split; [reflexivity|]. split; [reflexivity|].
      destruct (He2 e eq_refl) as [[-> _]|[_ Hbig]]; [auto | lia]. }
  unfold bind at 1, assign_default_max_tokens at 1, bind at 1, get_self at 1,
    set_self at 1.
  unfold bind at 1.
  match goal with |- context [_save_model_to_config ?x] => set (m3 := x) end.
  assert (writes (log m3) = writes (log m) /\ config_file m3 = config_file m)
    as [Hlog3 Hfile3].
  { subst m3 m2. machine_log. rewrite Hw1, Hw2, !app_nil_r. split; reflexivity. }
  pose proof (save_summary m3) as Hsum. pose proof (save_raises m3) as Hr.
  destruct (_save_model_to_config m3) as [m4 [[]|e]]; cbn [fst snd] in Hsum, Hr.
  - destruct Hsum as [d ->]. unfold bind, get_self, print. intros [= <- <-].
    exists (owned_fields (self m3) d). split; [|reflexivity].
    machine_log. rewrite Hlog3, !app_nil_r. reflexivity.
  - intros [= <- <-]. subst m4. split; [exact Hlog3|]. split; [exact Hfile3|].
    destruct (Hr e eq_refl) as [->|[->|[->|[[k ->]| ->]]]]; eauto 10.
Qed.

(** X3. [_prompt_model_selection] writes the config file exactly once
    when it returns, and not at all when it raises: a selection that is
    abandoned (quit, end of input) or whose save fails leaves the file as it
    was. It raises nothing but [EOFError], the [SystemExit 0] of the quit
    choice (the client fields are then untouched) and the errors of the
    save: [OSError], [TypeError], and what the read of the existing file
    lets through, [UnicodeDecodeError], the [ValueError] of an integer of
    too many digits and [RecursionError]. *)
Theorem prompt_writes_once_or_never (m : machine) :
  let m' := fst (_prompt_model_selection m) in
  match snd (_prompt_model_selection m) with
  | Return _ =>
      exists d : gmap string value,
        writes (log m') = (writes (log m) ++ [VDict d])%list /\
        option_map data (config_file m') = Some (Json (VDict d))
  | Raise e =>
      writes (log m') = writes (log m) /\
      config_file m' = config_file m /\
      (e = EOFError \/ (e = SystemExit 0 /\ self m' = self m) \/
       e = OSError \/ e = TypeError \/ e = UnicodeDecodeError \/
       (exists n, e = ValueError (int_limit_message n)) \/ e = RecursionError)
  end.
Proof.
  destruct (_prompt_model_selection m) as [m' r] eqn:E. cbn [fst snd].
  pose proof (prompt_result m m' r E) as H.
  destruct r as [[]|e].
  - destruct H as (d & Hw & Hf). exists d. split; [exact Hw | exact Hf].
  - destruct H as (Hw & Hf & He). split; [exact Hw|]. split; [exact Hf | exact He].
Qed.

Lemma init_unfold (m : machine) :
  __init__ m =
    match _load_model_from_config m with
    | (m', Return (a, b)) =>
        let m1 := with_self {| model := a; default_max_tokens := b |} m' in
        if is_none a || is_none b then _prompt_model_selection m1
        else (m1, Return tt)
    | (m', Raise e) => (m', Raise e)
    end.
Proof.
  unfold __init__. unfold bind at 1.
  destruct (_load_model_from_config m) as [m' [[a b]|e]]; [|reflexivity].
  cbv [bind assign_model assign_default_max_tokens get_self set_self fst snd].
  cbn [self with_self model default_max_tokens].
  destruct (is_none a || is_none b); reflexivity.
Qed.

Lemma is_none_false (v : value) : is_none v = false <-> v <> VNone.
Proof. destruct v; cbn; split; congruence. Qed.

(** A completed [_prompt_model_selection], step by step: the model is the
    one the model loop returns on the console input, the max-tokens value
    the one the max-tokens loop returns on the lines that follow. *)
Lemma prompt_returned (m m' : machine) :
  _prompt_model_selection m = (m', Return tt) ->
  exists (mdl : string) (n : Z) (evs1 evs2 : list event) (rest1 rest2 : list string)
         (d : gmap string value),
    model_loop (stdin m) = (evs1, rest1, Return mdl) /\
    max_tokens_loop 200000 mdl rest1 = (evs2, rest2, Return n) /\
    self m' = {| model := VStr mdl; default_max_tokens := VInt n |} /\
    stdin m' = rest2 /\
    log m' = (log m ++ PrintSetupBanner :: evs1 ++ PrintTokensBanner mdl 200000 :: evs2
                ++ [FileWrite (VDict d); PrintSelected (VStr mdl)])%list.
Proof.
  unfold _prompt_model_selection.
  unfold bind at 1, print at 1.
  unfold bind at 1, console at 1.
  change (stdin (logged [PrintSetupBanner] m)) with (stdin m).
  destruct (model_loop (stdin m)) as [[evs1 rest1] [mdl|e]] eqn:E1; [|discriminate].
  pose proof (model_loop_valid _ _ _ _ E1) as Hin.
  unfold bind at 1, assign_model at 1, bind at 1, get_self at 1, set_self at 1.
  unfold bind at 1.
  match goal with |- context [_get_context_limit ?x] => set (m2 := x) end.
  rewrite (context_limit_valid_model m2 mdl eq_refl Hin).
  unfold bind at 1, print at 1.
  unfold bind at 1, console at 1.
  change (stdin (logged [PrintTokensBanner mdl 200000] m2)) with rest1.
  destruct (max_tokens_loop 200000 mdl rest1) as [[evs2 rest2] [n|e]] eqn:E2;
    [|discriminate].
  unfold bind at 1, assign_default_max_tokens at 1, bind at 1, get_self at 1,
    set_self at 1.
  unfold bind at 1.
  match goal with |- context [_save_model_to_config ?x] => set (m3 := x) end.
  pose proof (save_summary m3) as Hsum.
  destruct (_save_model_to_config m3) as [m4 [[]|e]]; [|discriminate].
  cbn [fst snd] in Hsum. destruct Hsum as [d ->].
  unfold bind, get_self, print. intros [= <-].
  exists mdl, n, evs1, evs2, rest1, rest2, (owned_fields (self m3) d).
  split; [reflexivity|]. split; [exact E2|]. split; [reflexivity|].
  split; [reflexivity|].
  subst m3 m2. cbn [log logged with_file with_self with_stdin self].
  rewrite <- !app_assoc. reflexivity.
Qed.

(** X4. Unless the load finds both fields, [__init__] runs the whole
    selection: its outcome is that of [_prompt_model_selection] on the
    machine the load left. A stored model without a stored max-tokens value
    (or the reverse) is not kept: when [__init__] returns, the model is the
    one the model loop returned on the console input and the max-tokens
    value the one the max-tokens loop returned on the lines after it, one
    of the three identifiers and a value between 1 and 200000. *)
Theorem init_selects_unless_both_loaded (m m' : machine) (a b : value) :
  snd (_load_model_from_config m) = Return (a, b) ->
  a = VNone \/ b = VNone ->
  __init__ m
    = _prompt_model_selection
        (with_self {| model := a; default_max_tokens := b |}
           (fst (_load_model_from_config m))) /\
  (__init__ m = (m', Return tt) ->
   exists (mdl : string) (n : Z) (evs1 evs2 : list event) (rest1 rest2 : list string),
     model_loop (stdin m) = (evs1, rest1, Return mdl) /\
     max_tokens_loop 200000 mdl rest1 = (evs2, rest2, Return n) /\
     self m' = {| model := VStr mdl; default_max_tokens := VInt n |} /\
     stdin m' = rest2 /\
     In mdl [HAIKU_MODEL; SONNET_MODEL; OPUS_MODEL] /\
     1 <= n <= 200000).
Proof.
  intros Hload Hnone. rewrite init_unfold.
  destruct (load_result m) as (ml & r & E & _ & Hml). rewrite E in Hload |- *.
  cbn [snd] in Hload. subst r. cbn [fst].
  replace (is_none a || is_none b) with true
    by (destruct Hnone as [-> | ->]; [reflexivity | now rewrite orb_true_r]).
  cbv zeta. split; [reflexivity|]. intros Hp.
  destruct (prompt_returned _ _ Hp) as (mdl & n & evs1 & evs2 & rest1 & rest2 & d
                                         & E1 & E2 & Hs & Hi & _).
  assert (stdin ml = stdin m) as Hstdin
    by (destruct Hml as [->|(e & -> & _)]; reflexivity).
  cbn [stdin with_self] in E1. rewrite Hstdin in E1.
  exists mdl, n, evs1, evs2, rest1, rest2.
  split; [exact E1|]. split; [exact E2|]. split; [exact Hs|]. split; [exact Hi|].
  split; [exact (model_loop_valid _ _ _ _ E1)|].
  apply (max_tokens_loop_range 200000 mdl ltac:(lia) _ _ _ _ E2).
Qed.

Lemma init_selects_unless_both_loaded_witness :
  let stored : gmap string value := <["model" := VStr "claude-opus-4-5"]> ∅ in
  let m := with_file {| readable := true; data := Json (VDict stored) |}
             (fresh ["1"; "3"]) in
  __init__ m
    = _prompt_model_selection
        (with_self {| model := VStr "claude-opus-4-5"; default_max_tokens := VNone |}
           (fst (_load_model_from_config m))) /\
  (__init__ m = (fst (__init__ m), Return tt) ->
   exists (mdl : string) (n : Z) (evs1 evs2 : list event) (rest1 rest2 : list string),
     model_loop (stdin m) = (evs1, rest1, Return mdl) /\
     max_tokens_loop 200000 mdl rest1 = (evs2, rest2, Return n) /\
     self (fst (__init__ m)) = {| model := VStr mdl; default_max_tokens := VInt n |} /\
     stdin (fst (__init__ m)) = rest2 /\
     In mdl [HAIKU_MODEL; SONNET_MODEL; OPUS_MODEL] /\
     1 <= n <= 200000).
Proof.
  intros stored m.
  apply (init_selects_unless_both_loaded m (fst (__init__ m))
           (VStr "claude-opus-4-5") VNone).
  - vm_compute. reflexivity.
  - right. reflexivity.
Defined.

(** The stored model of the witness is replaced by the one typed. *)
Example stored_model_alone_is_replaced :
  let stored : gmap string value := <["model" := VStr "claude-opus-4-5"]> ∅ in
  let m := with_file {| readable := true; data := Json (VDict stored) |}
             (fresh ["1"; "3"]) in
  self (fst (__init__ m))
    = {| model := VStr "claude-haiku-4-5"; default_max_tokens := VInt 4096 |}.
Proof. vm_compute. reflexivity. Qed.

(** X5. A stored record with a non-null [model] and a non-null
    [llm.default_max_tokens] is taken as it is: [__init__] sets the two
    fields to the stored values, whatever JSON values they are, reads no
    input, prints nothing and writes nothing. *)
Theorem init_takes_complete_record (m : machine) (f : file)
    (d llm : gmap string value) (a b : value) :
  config_file m = Some f -> readable f = true -> data f = Json (VDict d) ->
  d !! "model" = Some a -> a <> VNone ->
  d !! "llm" = Some (VDict llm) ->
  llm !! "default_max_tokens" = Some b -> b <> VNone ->
  __init__ m = (with_self {| model := a; default_max_tokens := b |} m, Return tt).
Proof.
  intros H Hr Hd Ha Hna Hllm Hb Hnb.
  rewrite init_unfold, (load_dict m f d H Hr Hd), Hllm, Ha.
  cbn [default]. unfold id. cbn [py_get]. rewrite Hb. cbn [default]. unfold id.
  apply is_none_false in Hna, Hnb. now rewrite Hna, Hnb.
Qed.

Lemma init_takes_complete_record_witness :
  let llm : gmap string value := <["default_max_tokens" := VStr "lots"]> ∅ in
  let d : gmap string value := <["llm" := VDict llm]> (<["model" := VInt 42]> ∅) in
  let m := with_file {| readable := true; data := Json (VDict d) |} (fresh ["4"]) in
  __init__ m
    = (with_self {| model := VInt 42; default_max_tokens := VStr "lots" |} m, Return tt).
Proof.
  intros llm d m.
  apply (init_takes_complete_record
           m {| readable := true; data := Json (VDict d) |} d llm (VInt 42) (VStr "lots"));
    (reflexivity || discriminate).
Defined.

(** ** The configuration store, continued *)

(** The record a save works on: empty for a missing, unreadable or
    non-JSON file, the stored dictionary otherwise. *)
Lemma save_cases (m : machine) :
  (exists d : gmap string value,
      _save_model_to_config m = json_dump (VDict (owned_fields (self m) d)) m /\
      ((d = ∅ /\ forall f v, config_file m = Some f -> readable f = true ->
                             data f <> Json v) \/
       exists f, config_file m = Some f /\ readable f = true /\
                 data f = Json (VDict d))) \/
  (exists e, _save_model_to_config m = (m, Raise e) /\
             exists f, config_file m = Some f /\ readable f = true /\
                       (uncaught (data f) = Some e \/
                        exists v, data f = Json v /\ forall d, v <> VDict d)).
Proof.
  destruct (config_file m) as [f|] eqn:H.
  - destruct (readable f) eqn:Hr.
    + destruct (uncaught (data f)) as [e|] eqn:Hu.
      { right. exists e. split; [exact (save_uncaught m f e H Hr Hu)|].
        exists f. auto. }
      destruct (data f) as [| |n| |v] eqn:Hd; try discriminate Hu.
      * left. exists ∅. split; [now apply (save_garbled m f)|]. left.
        split; [reflexivity|]. intros f' v [= <-] _. congruence.
      * destruct v;
          try (right; exists TypeError;
               split; [now apply (save_not_dict m f _ H Hr Hd)|];
               exists f; split; [reflexivity|]; split; [exact Hr|]; right;
               eexists; split; [exact Hd | discriminate]).
        left. exists d. split; [exact (save_dict m f d H Hr Hd)|]. right. now exists f.
    + left. exists ∅. split; [now apply (save_unreadable m f)|]. left.
      split; [reflexivity|]. intros f' v [= <-]. congruence.
  - left. exists ∅. split; [now apply save_missing|]. left.
    split; [reflexivity|]. discriminate.
Qed.

Lemma owned_fields_idempotent (c : client) (d : gmap string value) :
  owned_fields c (owned_fields c d) = owned_fields c d.
Proof.
  apply map_eq. intros key.
  destruct (decide (key = "default_max_tokens")) as [->|H1].
  { now rewrite !owned_fields_lookup_max_tokens. }
  destruct (decide (key = "model")) as [->|H2].
  { now rewrite !owned_fields_lookup_model. }
  now rewrite !owned_fields_lookup_other.
Qed.

Lemma save_returned (m m1 : machine) :
  _save_model_to_config m = (m1, Return tt) ->
  writable m = true /\
  exists d : gmap string value,
    m1 = logged [FileWrite (VDict (owned_fields (self m) d))]
           (with_file {| readable := match config_file m with
                                     | Some f => readable f
                                     | None => true
                                     end;
                         data := Json (VDict (owned_fields (self m) d)) |} m) /\
    ((d = ∅ /\ forall f v, config_file m = Some f -> readable f = true ->
                           data f <> Json v) \/
     exists f, config_file m = Some f /\ readable f = true /\ data f = Json (VDict d)).
Proof.
  destruct (save_cases m) as [(d & E & Hd)|(e & E & _)]; rewrite E; [|discriminate].
  unfold json_dump. destruct (writable m); [|discriminate].
  intros [= <-]. split; [reflexivity|]. now exists d.
Qed.

(** X6. Saving twice is saving once: after a save that returned, a second
    save returns too and writes the same record again; the file and the
    client fields are as the first save left them. *)
Theorem save_is_idempotent (m m1 : machine) :
  _save_model_to_config m = (m1, Return tt) ->
  exists m2 : machine,
    _save_model_to_config m1 = (m2, Return tt) /\
    config_file m2 = config_file m1 /\
    self m2 = self m1 /\
    exists config, log m1 = (log m ++ [FileWrite config])%list /\
                   log m2 = (log m1 ++ [FileWrite config])%list.
Proof.
  intros H. destruct (save_returned m m1 H) as (Hw & d & -> & Hd).
  set (c := self m). set (od := owned_fields c d).
  set (r := match config_file m with Some f => readable f | None => true end).
  set (m1 := logged _ _).
  assert (_save_model_to_config m1 = json_dump (VDict od) m1) as E.
  { destruct r eqn:Hr.
    - rewrite (save_dict m1 {| readable := r; data := Json (VDict od) |} od);
        [| subst m1; cbn; now rewrite Hr | exact Hr | reflexivity].
      change (self m1) with c. subst od. now rewrite owned_fields_idempotent.
    - rewrite (save_unreadable m1 {| readable := r; data := Json (VDict od) |});
        [| subst m1; cbn; now rewrite Hr | exact Hr].
      change (self m1) with c. subst od.
      destruct Hd as [[-> _]|(f & Hf & Hrf & _)]; [reflexivity|].
      subst r. rewrite Hf in Hr. congruence. }
  rewrite E, json_dump_writable by exact Hw.
  eexists. split; [reflexivity|]. split; [|split; [reflexivity|]].
  - subst m1. cbn. reflexivity.
  - exists (VDict od). split; reflexivity.
Qed.

Lemma save_is_idempotent_witness :
  let m := with_self {| model := VStr HAIKU_MODEL; default_max_tokens := VInt 1024 |}
             (with_file {| readable := true;
                           data := Json (VDict (<["theme" := VStr "dark"]> ∅)) |}
                (fresh [])) in
  let m1 := fst (_save_model_to_config m) in
  exists m2 : machine,
    _save_model_to_config m1 = (m2, Return tt) /\
    config_file m2 = config_file m1 /\
    self m2 = self m1 /\
    exists config, log m1 = (log m ++ [FileWrite config])%list /\
                   log m2 = (log m1 ++ [FileWrite config])%list.
Proof.
  intros m m1. apply (save_is_idempotent m m1). reflexivity.
Defined.

(** X7. What comes back after a save: when the file was missing or
    readable and the save returned, a load that then returns gives the saved
    [model] field; its max-tokens value is [None] or the value a load gave
    before the save, never one the save put there. *)
Theorem saved_model_is_loaded (m m1 : machine) (a b : value) :
  (forall f, config_file m = Some f -> readable f = true) ->
  _save_model_to_config m = (m1, Return tt) ->
  snd (_load_model_from_config m1) = Return (a, b) ->
  a = model (self m) /\
  (b = VNone \/ exists a0, snd (_load_model_from_config m) = Return (a0, b)).
Proof.
  intros Hread H. destruct (save_returned m m1 H) as (Hw & d & -> & Hd).
  assert (match config_file m with Some f => readable f | None => true end = true)
    as ->.
  { destruct (config_file m) as [f|] eqn:Hf; [now apply Hread | reflexivity]. }
  erewrite load_dict; [| reflexivity | reflexivity | reflexivity].
  cbn [snd].
  rewrite owned_fields_lookup_model, owned_fields_lookup_other by discriminate.
  destruct (py_get (default (VDict ∅) (d !! "llm")) "default_max_tokens" VNone)
    as [t|e] eqn:Ht; [|discriminate].
  cbn [default]. unfold id. intros [= <- <-]. split; [reflexivity|].
  destruct Hd as [[-> _]|(f & Hf & Hrf & Hdf)].
  - left. rewrite lookup_empty in Ht. cbn in Ht. now injection Ht as <-.
  - right. rewrite (load_dict m f d Hf Hrf Hdf), Ht. cbn [snd]. eauto.
Qed.

Lemma saved_model_is_loaded_witness :
  let llm : gmap string value := <["default_max_tokens" := VInt 512]> ∅ in
  let m := with_self {| model := VStr OPUS_MODEL; default_max_tokens := VInt 8192 |}
             (with_file {| readable := true;
                           data := Json (VDict (<["llm" := VDict llm]> ∅)) |}
                (fresh [])) in
  VStr OPUS_MODEL = model (self m) /\
  (VInt 512 = VNone \/
   exists a0, snd (_load_model_from_config m) = Return (a0, VInt 512)).
Proof.
  intros llm m.
  apply (saved_model_is_loaded m (fst (_save_model_to_config m))).
  - intros f [= <-]. reflexivity.
  - reflexivity.
  - vm_compute. reflexivity.
Defined.

(** X8. A load only reads: it never changes the client fields, the file
    or the console input and never writes; it prints at most the one
    warning, and then returns [(None, None)]; and when it raises, the
    machine is as it was and the exception is [AttributeError] (content
    that is not an object) or one that the read of the file lets through:
    [UnicodeDecodeError], the [ValueError] of an integer of too many digits
    or [RecursionError]. *)
Theorem load_only_reads (m : machine) :
  let m' := fst (_load_model_from_config m) in
  self m' = self m /\ config_file m' = config_file m /\
  stdin m' = stdin m /\ writable m' = writable m /\
  (log m' = log m \/
   exists e, log m' = (log m ++ [PrintConfigWarning e])%list /\
             snd (_load_model_from_config m) = Return (VNone, VNone)) /\
  (forall e, snd (_load_model_from_config m) = Raise e ->
             (e = AttributeError \/ e = UnicodeDecodeError \/
              (exists n, e = ValueError (int_limit_message n)) \/
              e = RecursionError) /\ m' = m).
Proof.
  destruct (load_result m) as (m0 & r & -> & Hr & [->|(e & -> & ->)]); cbn [fst snd].
  - split; [reflexivity|]. split; [reflexivity|]. split; [reflexivity|].
    split; [reflexivity|]. split; [now left|].
    intros e He. split; [now apply Hr | reflexivity].
  - split; [reflexivity|]. split; [reflexivity|]. split; [reflexivity|].
    split; [reflexivity|]. split; [right; now exists e|]. discriminate.
Qed.

Lemma load_only_reads_witness :
  let m := with_file {| readable := true; data := TooManyDigits 5000 |} (fresh ["1"]) in
  (ValueError (int_limit_message 5000) = AttributeError \/
   ValueError (int_limit_message 5000) = UnicodeDecodeError \/
   (exists n, ValueError (int_limit_message 5000) = ValueError (int_limit_message n)) \/
   ValueError (int_limit_message 5000) = RecursionError) /\
  fst (_load_model_from_config m) = m.
Proof.
  intros m.
  apply (proj2 (proj2 (proj2 (proj2 (proj2 (load_only_reads m)))))). reflexivity.
Defined.

(** X9. On a readable file that holds JSON, the load raises
    [AttributeError] exactly when the content is not an object or its [llm]
    entry is present and not an object (a null [llm] included); [__init__]
    then fails with that error before any prompt. In every other case the
    load returns. *)
Theorem load_fails_on_non_object (m : machine) (f : file) (v : value) :
  config_file m = Some f -> readable f = true -> data f = Json v ->
  let not_object (x : value) := forall d : gmap string value, x <> VDict d in
  (snd (_load_model_from_config m) = Raise AttributeError <->
     not_object v \/
     exists (d : gmap string value) (x : value),
       v = VDict d /\ d !! "llm" = Some x /\ not_object x) /\
  (snd (_load_model_from_config m) = Raise AttributeError ->
     __init__ m = (m, Raise AttributeError)) /\
  (snd (_load_model_from_config m) <> Raise AttributeError ->
     exists a b, _load_model_from_config m = (m, Return (a, b))).
Proof.
  intros H Hr Hd not_object. subst not_object. cbv beta.
  assert (forall e, snd (_load_model_from_config m) = Raise e ->
                    __init__ m = (m, Raise e)) as Hinit.
  { intros e He. rewrite init_unfold.
    destruct (load_result m) as (m0 & r & E & _ & Hm). rewrite E in He |- *.
    cbn [snd] in He. subst r.
    destruct Hm as [->|(w & _ & Hw)]; [reflexivity | discriminate Hw]. }
  split; [|split; [exact (Hinit AttributeError)|]].
  - destruct v;
      try (rewrite (load_not_dict m f _ H Hr Hd) by discriminate;
           split; [intros _; left; discriminate | reflexivity]).
    rewrite (load_dict m f d H Hr Hd). cbn [snd]. split.
    + intros He. right. exists d.
      destruct (d !! "llm") as [x|]; [|discriminate He].
      exists x. split; [reflexivity|]. split; [reflexivity|].
      intros l ->. discriminate He.
    + intros [Hn|(d' & x & [= <-] & Hx & Hn)]; [now destruct (Hn d)|].
      rewrite Hx. cbn [default]. unfold id.
      destruct x; try reflexivity. now destruct (Hn d0).
  - intros Hne.
    destruct v; try (now rewrite (load_not_dict m f _ H Hr Hd) in Hne by discriminate).
    rewrite (load_dict m f d H Hr Hd) in Hne |- *. cbn [snd] in Hne.
    destruct (py_get (default (VDict ∅) (d !! "llm")) "default_max_tokens" VNone)
      as [t|e] eqn:Ht; [eauto|].
    exfalso. apply Hne. f_equal.
    destruct (d !! "llm") as [[]|]; cbn in Ht; congruence.
Qed.

Lemma load_fails_on_non_object_witness :
  let d : gmap string value :=
    <["llm" := VNone]> (<["model" := VStr SONNET_MODEL]> ∅) in
  let m := with_file {| readable := true; data := Json (VDict d) |} (fresh ["1"; "1"]) in
  let not_object (x : value) := forall d : gmap string value, x <> VDict d in
  (snd (_load_model_from_config m) = Raise AttributeError <->
     not_object (VDict d) \/
     exists (d' : gmap string value) (x : value),
       VDict d = VDict d' /\ d' !! "llm" = Some x /\ not_object x) /\
  (snd (_load_model_from_config m) = Raise AttributeError ->
     __init__ m = (m, Raise AttributeError)) /\
  (snd (_load_model_from_config m) <> Raise AttributeError ->
     exists a b, _load_model_from_config m = (m, Return (a, b))).
Proof.
  intros d m.
  exact (load_fails_on_non_object
           m {| readable := true; data := Json (VDict d) |} (VDict d)
           eq_refl eq_refl eq_refl).
Defined.

(** X10. When the stored content is JSON but not an object, [set_model]
    with a valid identifier raises [TypeError] out of the save: nothing is
    written or printed and the file is untouched, but the client's model
    field has already been changed. *)
Theorem set_model_on_non_object_record (m : machine) (f : file) (v : value)
    (new_model : string) :
  config_file m = Some f -> readable f = true -> data f = Json v ->
  (forall d : gmap string value, v <> VDict d) ->
  In new_model [HAIKU_MODEL; SONNET_MODEL; OPUS_MODEL] ->
  set_model new_model m =
    (with_self {| model := VStr new_model;
                  default_max_tokens := default_max_tokens (self m) |} m,
     Raise TypeError).
Proof.
  intros H Hr Hd Hv Hin. apply valid_model_In in Hin.
  unfold set_model. cbv zeta. rewrite Hin. cbn [negb].
  unfold assign_model, bind at 1 2, get_self, set_self.
  unfold bind.
  now rewrite (save_not_dict (with_self _ m) f v H Hr Hd Hv).
Qed.

Lemma set_model_on_non_object_record_witness :
  let m := with_self {| model := VStr HAIKU_MODEL; default_max_tokens := VInt 2048 |}
             (with_file {| readable := true; data := Json (VList []) |} (fresh [])) in
  set_model OPUS_MODEL m =
    (with_self {| model := VStr OPUS_MODEL;
                  default_max_tokens := default_max_tokens (self m) |} m,
     Raise TypeError).
Proof.
  intros m.
  apply (set_model_on_non_object_record
           m {| readable := true; data := Json (VList []) |} (VList []));
    try reflexivity.
  - discriminate.
  - right; right; left; reflexivity.
Defined.

(** X11. The context limit and the pricing agree on what a known model
    is: for a client whose model is the string [s], [_get_context_limit]
    returns 200000 exactly when [estimate_cost] prices [s] (it evaluates
    the formula of a family, and returns a cost for all counts below
    2^1000) and the fallback 10000 exactly when [estimate_cost] raises the
    error of the unknown model on [s]. So with the limit the method
    returns, an in-range custom value above 10000 can always be priced: the
    high-cost warning never meets an unknown model. *)
Theorem context_limit_agrees_with_pricing (m : machine) (s : string) :
  model (self m) = VStr s ->
  ((exists f : family,
       classify s = Some f /\
       _get_context_limit m = (m, Return 200000) /\
       forall i o,
         estimate_cost i o s = cost_formula i o f /\
         (0 <= i < 2 ^ 1000 -> 0 <= o < 2 ^ 1000 ->
          exists c : float, estimate_cost i o s = Return c)) \/
   (classify s = None /\
    _get_context_limit m = (m, Return 10000) /\
    forall i o, estimate_cost i o s = Raise (ValueError (unknown_model_message s)))) /\
  (forall L custom : Z,
      _get_context_limit m = (m, Return L) ->
      1 <= custom <= L -> 10000 < custom ->
      exists c : float, estimate_cost custom custom s = Return c).
Proof.
  intros Hm.
  assert ((exists f : family,
              classify s = Some f /\
              _get_context_limit m = (m, Return 200000)) \/
          (classify s = None /\
           _get_context_limit m = (m, Return 10000) /\
           forall i o, estimate_cost i o s
                       = Raise (ValueError (unknown_model_message s)))) as Hcases.
  { unfold _get_context_limit, bind, get_self, classify, estimate_cost.
    rewrite Hm. cbn [List.find family_token].
    destruct (contains "haiku" (lower s)); [left; exists Haiku; auto|].
    destruct (contains "sonnet" (lower s)); [left; exists Sonnet; auto|].
    destruct (contains "opus" (lower s)); [left; exists Opus; auto|].
    right. auto. }
  assert (forall f, classify s = Some f ->
                    forall i o,
                      estimate_cost i o s = cost_formula i o f /\
                      (0 <= i < 2 ^ 1000 -> 0 <= o < 2 ^ 1000 ->
                       exists c : float, estimate_cost i o s = Return c)) as Hpriced.
  { intros f Hf i o. rewrite (classify_estimate_cost i o s f Hf).
    split; [reflexivity|]. intros Hi Ho.
    rewrite (cost_formula_below_bound i o f Hi Ho). eauto. }
  split.
  - destruct Hcases as [(f & Hf & HL)|Hunknown]; [left | right; exact Hunknown].
    exists f. split; [exact Hf|]. split; [exact HL | exact (Hpriced f Hf)].
  - intros L custom HL Hr Hc.
    destruct Hcases as [(f & Hf & HL')|(_ & HL' & _)].
    + rewrite HL' in HL. injection HL as <-.
      apply (Hpriced f Hf custom custom); lia.
    + rewrite HL' in HL. injection HL as <-. lia.
Qed.

Lemma context_limit_agrees_with_pricing_witness :
  let m := with_self {| model := VStr "mistral-large"; default_max_tokens := VNone |}
             (fresh []) in
  ((exists f : family,
       classify "mistral-large" = Some f /\
       _get_context_limit m = (m, Return 200000) /\
       forall i o,
         estimate_cost i o "mistral-large" = cost_formula i o f /\
         (0 <= i < 2 ^ 1000 -> 0 <= o < 2 ^ 1000 ->
          exists c : float, estimate_cost i o "mistral-large" = Return c)) \/
   (classify "mistral-large" = None /\
    _get_context_limit m = (m, Return 10000) /\
    forall i o, estimate_cost i o "mistral-large"
                = Raise (ValueError (unknown_model_message "mistral-large")))) /\
  (forall L custom : Z,
      _get_context_limit m = (m, Return L) ->
      1 <= custom <= L -> 10000 < custom ->
      exists c : float, estimate_cost custom custom "mistral-large" = Return c).
Proof.
  intros m. exact (context_limit_agrees_with_pricing m "mistral-large" eq_refl).
Defined.

(** ** The sign of a cost *)

Lemma fmul_nonneg (x y : float) (mant : positive) (e : Z) :
  nonnegative x = true -> y = S754_finite false mant e ->
  nonnegative (fmul x y) = true.
Proof.
  intros Hx ->. destruct x as [[]|[]| |[] mx ex]; try discriminate; try reflexivity.
  unfold fmul, SFmul. cbn [xorb]. now apply binary_round_aux_sign.
Qed.

Lemma fadd_nonneg (x y : float) :
  nonnegative x = true -> nonnegative y = true -> nonnegative (fadd x y) = true.
Proof.
  intros Hx Hy.
  destruct x as [[]|[]| |[] mx ex]; try discriminate;
    destruct y as [[]|[]| |[] my ey]; try discriminate; try reflexivity.
  unfold fadd, SFadd, cond_Zopp.
  destruct (shl_align mx ex (Z.min ex ey)) as [ax ex'].
  destruct (shl_align my ey (Z.min ex ey)) as [ay ey']. cbn [fst].
  change (Z.pos ax + Z.pos ay) with (Z.pos (ax + ay)).
  cbn [binary_normalize]. unfold binary_round.
  destruct (shl_align _ _ _) as [mz ez]. now apply binary_round_aux_sign.
Qed.

Lemma prices_positive (f : family) :
  (exists mant e, input_price f = S754_finite false mant e) /\
  (exists mant e, output_price f = S754_finite false mant e).
Proof. destruct f; split; vm_compute; eauto. Qed.

(** X12. For a priced model and non-negative token counts, a cost that
    [estimate_cost] returns is never negative and never NaN: [cost < 0] is
    false and the cost equals itself. It returns a cost for all counts
    below 2^1000, and where it returns none it raises [OverflowError]. *)
Theorem estimate_cost_is_not_negative (i o : Z) (s : string) (f : family) :
  classify s = Some f -> 0 <= i -> 0 <= o ->
  (forall c : float,
      estimate_cost i o s = Return c ->
      nonnegative c = true /\
      SFltb c (S754_zero false) = false /\
      SFeqb c c = true) /\
  (forall e : exn, estimate_cost i o s = Raise e -> e = OverflowError) /\
  (i < 2 ^ 1000 -> o < 2 ^ 1000 ->
   exists c : float, estimate_cost i o s = Return c).
Proof.
  intros Hf Hi Ho.
  rewrite (classify_estimate_cost i o s f Hf), (cost_formula_cases i o f Hi Ho).
  split; [|split].
  - intros c Hret.
    destruct (finite (int_quotient i 1000000) && finite (int_quotient o 1000000));
      [|discriminate].
    injection Hret as <-. set (c := fadd _ _).
    assert (nonnegative c = true) as Hc.
    { destruct (prices_positive f) as [(mi & ei & Hpi) (mo & eo & Hpo)].
      apply fadd_nonneg.
      - apply (fmul_nonneg _ _ mi ei); [apply int_quotient_nonneg; lia | exact Hpi].
      - apply (fmul_nonneg _ _ mo eo); [apply int_quotient_nonneg; lia | exact Hpo]. }
    split; [exact Hc|].
    destruct c as [[]|[]| |[] mc ec]; try discriminate Hc.
    + split; reflexivity.
    + split; reflexivity.
    + split; [reflexivity|]. unfold SFeqb, SFcompare.
      rewrite Z.compare_refl. now rewrite Pos.compare_cont_refl.
  - intros e.
    destruct (finite (int_quotient i 1000000) && finite (int_quotient o 1000000));
      [discriminate | now intros [= <-]].
  - intros Hi' Ho'. rewrite !int_quotient_finite by lia. cbn [andb]. eauto.
Qed.

Lemma estimate_cost_is_not_negative_witness :
  (forall c : float,
      estimate_cost 12 0 "claude-3-opus" = Return c ->
      nonnegative c = true /\
      SFltb c (S754_zero false) = false /\
      SFeqb c c = true) /\
  (forall e : exn, estimate_cost 12 0 "claude-3-opus" = Raise e -> e = OverflowError) /\
  (12 < 2 ^ 1000 -> 0 < 2 ^ 1000 ->
   exists c : float, estimate_cost 12 0 "claude-3-opus" = Return c).
Proof.
  apply (estimate_cost_is_not_negative 12 0 "claude-3-opus" Opus);
    [reflexivity | lia | lia].
Defined.

(** ** [format_cost] *)

Lemma length_append (a b : string) :
  String.length (a ++ b) = (String.length a + String.length b)%nat.
Proof.
  induction a as [|c a IH]; [reflexivity|].
  rewrite append_cons. cbn [String.length]. now rewrite IH.
Qed.

Lemma all_digits_append (a b : string) :
  all_digits (a ++ b) = all_digits a && all_digits b.
Proof.
  induction a as [|c a IH]; [reflexivity|].
  rewrite append_cons. cbn [all_digits]. now destruct (digit_of c).
Qed.

Lemma digit_of_digit_char (d : Z) :
  0 <= d <= 9 -> digit_of (digit_char d) = Some d.
Proof.
  intros H.
  assert (d = 0 \/ d = 1 \/ d = 2 \/ d = 3 \/ d = 4 \/ d = 5 \/ d = 6 \/ d = 7 \/
          d = 8 \/ d = 9) as Hd by lia.
  repeat (destruct Hd as [->|Hd]; [reflexivity|]). now subst.
Qed.

Lemma digit_char_is_digit (d : Z) : d <= 9 -> all_digits (String (digit_char d) "") = true.
Proof.
  intros H. cbn [all_digits]. destruct (Z.le_gt_cases 0 d) as [H0|H0].
  - now rewrite digit_of_digit_char by lia.
  - unfold digit_char. replace (Z.to_N d) with 0%N by lia. reflexivity.
Qed.

Lemma fixed_digits_length (n : nat) (k : Z) : String.length (fixed_digits n k) = n.
Proof.
  revert k. induction n as [|n IH]; intros k; [reflexivity|].
  cbn [fixed_digits]. rewrite length_append, IH. cbn. lia.
Qed.

Lemma fixed_digits_all_digits (n : nat) (k : Z) : all_digits (fixed_digits n k) = true.
Proof.
  revert k. induction n as [|n IH]; intros k; [reflexivity|].
  cbn [fixed_digits]. rewrite all_digits_append, IH, digit_char_is_digit; [reflexivity|].
  pose proof (Z.mod_pos_bound k 10). lia.
Qed.

Lemma decimal_go_all_digits (fuel : nat) (k : Z) : all_digits (decimal_go fuel k) = true.
Proof.
  revert k. induction fuel as [|fuel IH]; intros k; [reflexivity|].
  cbn [decimal_go]. destruct (Z.ltb_spec k 10).
  - apply digit_char_is_digit. lia.
  - rewrite all_digits_append, IH, digit_char_is_digit; [reflexivity|].
    pose proof (Z.mod_pos_bound k 10). lia.
Qed.

Lemma decimal_not_empty (k : Z) : decimal k <> "".
Proof.
  unfold decimal. cbn [decimal_go]. destruct (k <? 10)%Z; [discriminate|].
  destruct (decimal_go _ _); discriminate.
Qed.

(** The shape of [fixed n x] for a number: sign, whole digits, point, [n]
    digits. *)
Lemma fixed_shape (n : nat) (x : float) :
  match x with
  | S754_nan => fixed n x = "nan"
  | S754_infinity s => fixed n x = sign_text s ++ "inf"
  | S754_zero s | S754_finite s _ _ =>
      exists whole frac : string,
        fixed n x = sign_text s ++ whole ++ "." ++ frac /\
        whole <> "" /\ all_digits whole = true /\
        String.length frac = n /\ all_digits frac = true
  end.
Proof.
  destruct x as [s|s| |s mant e]; try reflexivity.
  - exists "0", (fixed_digits n 0). split; [reflexivity|]. split; [discriminate|].
    split; [reflexivity|]. split; [apply fixed_digits_length|apply fixed_digits_all_digits].
  - cbn [fixed]. eexists _, _. split; [reflexivity|].
    split; [apply decimal_not_empty|]. split; [apply decimal_go_all_digits|].
    split; [apply fixed_digits_length|apply fixed_digits_all_digits].
Qed.

Lemma parse_digit_char (d : Z) (t : string) (acc : Z) (fl : bool) :
  0 <= d <= 9 ->
  parse_digits (String (digit_char d) t) acc fl = parse_digits t (10 * acc + d) true.
Proof. intros H. cbn [parse_digits]. now rewrite digit_of_digit_char. Qed.

(** Reading back the digits that [fixed_digits] prints. *)
Lemma parse_fixed_digits (n : nat) (k : Z) (t : string) (acc : Z) :
  parse_digits (fixed_digits n k ++ t) acc true
  = parse_digits t (acc * 10 ^ Z.of_nat n + k mod 10 ^ Z.of_nat n) true.
Proof.
  revert k t acc. induction n as [|n IH]; intros k t acc.
  - cbn [fixed_digits]. rewrite append_empty_l. cbn [Z.of_nat].
    rewrite Z.pow_0_r, Z.mod_1_r. f_equal. lia.
  - cbn [fixed_digits]. rewrite append_assoc, IH, append_cons, append_empty_l.
    rewrite parse_digit_char by (pose proof (Z.mod_pos_bound k 10); lia).
    f_equal. rewrite Nat2Z.inj_succ, Z.pow_succ_r by lia.
    rewrite (Z.rem_mul_r k 10 (10 ^ Z.of_nat n)) by lia. lia.
Qed.

Lemma decimal_go_S (fuel : nat) (k : Z) :
  decimal_go (S fuel) k
  = if (k <? 10)%Z then String (digit_char k) ""
    else decimal_go fuel (k / 10) ++ String (digit_char (k mod 10)) "".
Proof. reflexivity. Qed.

(** Reading back the digits that [decimal_go] prints, given fuel enough. *)
Lemma parse_decimal_go (fuel : nat) (k : Z) (t : string) (fl : bool) :
  0 <= k < 10 ^ Z.of_nat (S fuel) ->
  parse_digits (decimal_go (S fuel) k ++ t) 0 fl = parse_digits t k true.
Proof.
  revert k t. induction fuel as [|fuel IH]; intros k t Hk;
    rewrite decimal_go_S; destruct (Z.ltb_spec k 10) as [Hlt|Hge];
    try (rewrite append_cons, append_empty_l, parse_digit_char by lia; f_equal; lia).
  - cbn in Hk. lia.
  - rewrite Nat2Z.inj_succ, Z.pow_succ_r in Hk by lia.
    rewrite append_assoc, IH, append_cons, append_empty_l.
    + rewrite parse_digit_char by (pose proof (Z.mod_pos_bound k 10); lia).
      f_equal. pose proof (Z.div_mod k 10). lia.
    + split; [apply Z.div_pos; lia | apply Z.div_lt_upper_bound; lia].
Qed.

Lemma decimal_fuel (k : Z) : 0 <= k -> k < 10 ^ Z.of_nat (S (Z.to_nat (Z.log2 k))).
Proof.
  intros Hk. pose proof (Z.log2_nonneg k) as Hl.
  rewrite Nat2Z.inj_succ, Z2Nat.id by exact Hl.
  destruct (Z.eq_dec k 0) as [->|Hnz].
  - cbn. lia.
  - pose proof (Z.log2_spec k ltac:(lia)) as [_ Hup].
    pose proof (Z.pow_le_mono_l 2 10 (Z.succ (Z.log2 k)) ltac:(lia)). lia.
Qed.

(** [int(str(k)) = k], also with further digits after it. *)
Lemma parse_decimal (k : Z) (t : string) (fl : bool) :
  0 <= k -> parse_digits (decimal k ++ t) 0 fl = parse_digits t k true.
Proof. intros Hk. apply parse_decimal_go. split; [exact Hk | now apply decimal_fuel]. Qed.

(** The numeral that [decimal] prints has no leading zero. *)
Lemma decimal_go_head (fuel : nat) (k : Z) :
  0 < k < 10 ^ Z.of_nat (S fuel) ->
  exists c rest, decimal_go (S fuel) k = String c rest /\ c <> "0"%char.
Proof.
  revert k. induction fuel as [|fuel IH]; intros k Hk;
    rewrite decimal_go_S; destruct (Z.ltb_spec k 10) as [Hlt|Hge];
    try (exists (digit_char k), ""; split; [reflexivity|];
         assert (k = 1 \/ k = 2 \/ k = 3 \/ k = 4 \/ k = 5 \/ k = 6 \/ k = 7 \/
                 k = 8 \/ k = 9) as Hd by lia;
         repeat (destruct Hd as [->|Hd]; [discriminate|]); subst; discriminate).
  - cbn in Hk. lia.
  - rewrite Nat2Z.inj_succ, Z.pow_succ_r in Hk by lia.
    destruct (IH (k / 10)) as (c & rest & -> & Hc).
    + split; [apply Z.div_str_pos; lia | apply Z.div_lt_upper_bound; lia].
    + exists c, (rest ++ String (digit_char (k mod 10)) "").
      split; [apply append_cons | exact Hc].
Qed.

Lemma decimal_head (k : Z) :
  0 <= k ->
  decimal k = "0" \/ exists c rest, decimal k = String c rest /\ c <> "0"%char.
Proof.
  intros Hk. destruct (Z.eq_dec k 0) as [->|Hnz]; [now left|]. right.
  apply decimal_go_head. split; [lia | now apply decimal_fuel].
Qed.

(** [round_half_even] gives a nearest integer, the even one of two. *)
Lemma round_half_even_nearest (num den : Z) :
  0 < den ->
  let N := round_half_even num den in
  Z.abs (2 * (N * den - num)) <= den /\
  (Z.abs (2 * (N * den - num)) = den -> Z.even N = true).
Proof.
  intros Hden N. subst N. unfold round_half_even.
  pose proof (Z.div_mod num den ltac:(lia)) as Hdm.
  pose proof (Z.mod_pos_bound num den Hden) as Hr.
  destruct (Z.compare_spec (2 * (num mod den)) den) as [He|Hl|Hg].
  - destruct (Z.even (num / den)) eqn:Hev.
    + split; [nia | intros _; exact Hev].
    + split; [nia|]. intros _. rewrite Z.even_add, Hev. reflexivity.
  - split; [nia|nia].
  - split; [nia|nia].
Qed.

Lemma append_empty_r (s : string) : s ++ "" = s.
Proof. induction s as [|c s IH]; [reflexivity|]. now rewrite append_cons, IH. Qed.

Lemma round_half_even_nonneg (num den : Z) :
  0 <= num -> 0 < den -> 0 <= round_half_even num den.
Proof.
  intros Hn Hd. unfold round_half_even.
  pose proof (Z.div_pos num den Hn Hd).
  destruct (2 * (num mod den) ?= den)%Z; [destruct (Z.even _)| |]; lia.
Qed.

(** X13. [format_cost] prints a dollar sign and the cost rounded to the
    nearest multiple of 0.0001 when it is below 0.01 (every negative cost and
    both zeros included) and of 0.01 otherwise, a tie going to the even
    digit: after the sign come the digits of the whole part, without a
    leading zero unless it is 0, the point, and four or two digits; read as
    one integer [N] they are the nearest integer to the absolute value of
    the cost times 10^4 or 10^2. The infinities and NaN come out as
    [$inf], [$-inf] and [$nan]. *)
Theorem format_cost_decimals (cost_usd : float) :
  match cost_usd with
  | S754_nan => format_cost cost_usd = "$nan"
  | S754_infinity s => format_cost cost_usd = "$" ++ sign_text s ++ "inf"
  | S754_zero s => format_cost cost_usd = "$" ++ sign_text s ++ "0.0000"
  | S754_finite s mant e =>
      let n := if SFltb cost_usd CENT then 4%nat else 2%nat in
      exists (whole frac : string) (N : Z),
        format_cost cost_usd = "$" ++ sign_text s ++ whole ++ "." ++ frac /\
        String.length frac = n /\
        all_digits (whole ++ frac) = true /\
        (whole = "0" \/ exists c rest, whole = String c rest /\ c <> "0"%char) /\
        parse_digits (whole ++ frac) 0 false = Some N /\
        (0 <= e -> N = Z.pos mant * 2 ^ e * 10 ^ Z.of_nat n) /\
        (e < 0 ->
         Z.abs (2 * (N * 2 ^ (- e) - Z.pos mant * 10 ^ Z.of_nat n)) <= 2 ^ (- e) /\
         (Z.abs (2 * (N * 2 ^ (- e) - Z.pos mant * 10 ^ Z.of_nat n)) = 2 ^ (- e) ->
          Z.even N = true)) /\
        (s = true -> n = 4%nat)
  end.
Proof.
  destruct cost_usd as [s|s| |s mant e]; try (now destruct s); [reflexivity|].
  assert (forall n : nat,
             exists (whole frac : string) (N : Z),
               fixed n (S754_finite s mant e) = sign_text s ++ whole ++ "." ++ frac /\
               String.length frac = n /\
               all_digits (whole ++ frac) = true /\
               (whole = "0" \/ exists c rest, whole = String c rest /\ c <> "0"%char) /\
               parse_digits (whole ++ frac) 0 false = Some N /\
               (0 <= e -> N = Z.pos mant * 2 ^ e * 10 ^ Z.of_nat n) /\
               (e < 0 ->
                Z.abs (2 * (N * 2 ^ (- e) - Z.pos mant * 10 ^ Z.of_nat n)) <= 2 ^ (- e) /\
                (Z.abs (2 * (N * 2 ^ (- e) - Z.pos mant * 10 ^ Z.of_nat n)) = 2 ^ (- e) ->
                 Z.even N = true))) as Hfixed.
  { intros n. cbn [fixed]. set (scaled := if (0 <=? e)%Z then _ else _).
    pose proof (Z.pow_pos_nonneg 10 (Z.of_nat n) ltac:(lia) ltac:(lia)) as Hten.
    assert (0 <= scaled) as Hs.
    { subst scaled. destruct (Z.leb_spec 0 e).
      - pose proof (Z.pow_pos_nonneg 2 e ltac:(lia) ltac:(lia)). nia.
      - apply round_half_even_nonneg; [nia | apply Z.pow_pos_nonneg; lia]. }
    assert (0 <= scaled / 10 ^ Z.of_nat n) as Hw by (apply Z.div_pos; lia).
    exists (decimal (scaled / 10 ^ Z.of_nat n)), (fixed_digits n scaled), scaled.
    split; [reflexivity|]. split; [apply fixed_digits_length|].
    split; [rewrite all_digits_append; unfold decimal;
            now rewrite decimal_go_all_digits, fixed_digits_all_digits|].
    split; [now apply decimal_head|]. split; [|split].
    - rewrite parse_decimal by exact Hw.
      rewrite <- (append_empty_r (fixed_digits n scaled)), parse_fixed_digits.
      cbn [parse_digits]. f_equal.
      pose proof (Z.div_mod scaled (10 ^ Z.of_nat n) ltac:(lia)). lia.
    - intros He. subst scaled. now destruct (Z.leb_spec 0 e); [|lia].
    - intros He. subst scaled. destruct (Z.leb_spec 0 e); [lia|].
      apply round_half_even_nearest. apply Z.pow_pos_nonneg; lia. }
  unfold format_cost. cbv zeta.
  assert (s = true -> SFltb (S754_finite s mant e) CENT = true) as Hneg
    by (now intros ->).
  destruct (SFltb (S754_finite s mant e) CENT) eqn:Hlt.
  - destruct (Hfixed 4%nat) as (whole & frac & N & -> & H).
    exists whole, frac, N. split; [reflexivity|].
    destruct H as (H1 & H2 & H3 & H4 & H5 & H6). auto 10.
  - destruct (Hfixed 2%nat) as (whole & frac & N & -> & H).
    exists whole, frac, N. split; [reflexivity|].
    destruct H as (H1 & H2 & H3 & H4 & H5 & H6).
    split; [exact H1|]. split; [exact H2|]. split; [exact H3|]. split; [exact H4|].
    split; [exact H5|]. split; [exact H6|]. intros Hs. discriminate (Hneg Hs).
Qed.

Lemma decimal_go_not_empty (fuel : nat) (k : Z) : decimal_go (S fuel) k <> "".
Proof.
  cbn [decimal_go]. destruct (k <? 10)%Z; [discriminate|].
  destruct (decimal_go _ _); discriminate.
Qed.

Lemma digit_char_zero (d : Z) : 0 <= d <= 9 -> digit_char d = "0"%char -> d = 0.
Proof.
  intros H E. pose proof (digit_of_digit_char d H) as Hd. rewrite E in Hd.
  now injection Hd as <-.
Qed.

Lemma decimal_zero (k : Z) : 0 <= k -> decimal k = "0" -> k = 0.
Proof.
  intros Hk. unfold decimal. cbn [decimal_go]. destruct (Z.ltb_spec k 10) as [H|H].
  - intros [= E]. apply digit_char_zero in E; lia.
  - assert (3 <= Z.log2 k) as Hl by (change 3 with (Z.log2 8); apply Z.log2_le_mono; lia).
    destruct (Z.to_nat (Z.log2 k)) as [|fuel] eqn:Hf; [lia|].
    pose proof (decimal_go_not_empty fuel (k / 10)) as Hne.
    destruct (decimal_go (S fuel) (k / 10)) as [|c t]; [now destruct Hne|].
    rewrite append_cons. intros [= _ E]. destruct t; discriminate E.
Qed.

Lemma fixed_digits_two_zeros (k : Z) : fixed_digits 2 k = "00" -> k mod 100 = 0.
Proof.
  cbn [fixed_digits]. rewrite append_empty_l, append_cons, append_empty_l.
  intros [= E1 E2].
  apply digit_char_zero in E1; [|pose proof (Z.mod_pos_bound (k / 10) 10); lia].
  apply digit_char_zero in E2; [|pose proof (Z.mod_pos_bound k 10); lia].
  rewrite (Z.div_mod k 10) by lia.
  rewrite (Z.div_mod (k / 10) 10) by lia. rewrite E1, E2.
  replace (10 * (10 * (k / 10 / 10) + 0) + 0) with (k / 10 / 10 * 100) by lia.
  apply Z.mod_mul. lia.
Qed.

Lemma digits2_pos_lower (mant : positive) :
  2 ^ (Z.pos (digits2_pos mant) - 1) <= Z.pos mant.
Proof.
  induction mant as [q IH|q IH|]; cbn [digits2_pos]; [| |cbn; lia].
  - rewrite Pos2Z.inj_succ.
    replace (Z.succ (Z.pos (digits2_pos q)) - 1) with (Z.succ (Z.pos (digits2_pos q) - 1))
      by lia.
    rewrite Z.pow_succ_r by lia. lia.
  - rewrite Pos2Z.inj_succ.
    replace (Z.succ (Z.pos (digits2_pos q)) - 1) with (Z.succ (Z.pos (digits2_pos q) - 1))
      by lia.
    rewrite Z.pow_succ_r by lia. lia.
Qed.

Lemma round_half_even_lower (num den : Z) : num / den <= round_half_even num den.
Proof.
  unfold round_half_even. destruct (2 * (num mod den) ?= den)%Z; try lia.
  destruct (Z.even (num / den)); lia.
Qed.

(** A float (in canonical form) that is not below 0.01 rounds, at two
    decimals, to at least one hundredth. *)
Lemma scaled_cent (mant : positive) (e : Z) :
  valid_binary prec emax (S754_finite false mant e) = true ->
  SFltb (S754_finite false mant e) CENT = false ->
  1 <= (if (0 <=? e)%Z then Z.pos mant * 2 ^ e * 10 ^ Z.of_nat 2
        else round_half_even (Z.pos mant * 10 ^ Z.of_nat 2) (2 ^ (- e))).
Proof.
  intros Hv Hlt.
  assert (-59 < e \/ (e = -59 /\ 5764607523034235 <= Z.pos mant)) as He.
  { unfold SFltb, SFcompare, CENT in Hlt.
    destruct (Z.compare_spec e (-59)) as [->| |]; [|discriminate|lia].
    right. split; [reflexivity|].
    rewrite Pos.compare_cont_spec in Hlt. cbn [Pos.switch_Eq] in Hlt.
    destruct (Pos.compare_spec mant 5764607523034235); (discriminate || lia). }
  change (10 ^ Z.of_nat 2) with 100.
  destruct (Z.leb_spec 0 e) as [H0|H0].
  - assert (1 <= 2 ^ e) by (apply (Z.pow_le_mono_r 2 0 e); lia). nia.
  - assert (2 ^ 52 <= Z.pos mant) as Hm.
    { cbn [valid_binary] in Hv. unfold bounded, canonical_mantissa in Hv.
      apply andb_true_iff in Hv as [Hc _]. apply Z.eqb_eq in Hc.
      unfold fexp, emin, prec, emax in Hc.
      pose proof (digits2_pos_lower mant) as Hd.
      replace (Z.pos (digits2_pos mant)) with 53 in Hd by lia. exact Hd. }
    eapply Z.le_trans; [|apply round_half_even_lower].
    apply Z.div_le_lower_bound; [apply Z.pow_pos_nonneg; lia|]. rewrite Z.mul_1_r.
    destruct He as [He|[-> Hm']].
    + apply Z.le_trans with (2 ^ 58).
      * apply Z.pow_le_mono_r; lia.
      * change (2 ^ 52) with 4503599627370496 in Hm.
        change (2 ^ 58) with 288230376151711744. lia.
    + change (2 ^ (- -59)) with 576460752303423488. lia.
Qed.

Lemma string_cons_eq (c1 c2 : ascii) (a b : string) :
  String c1 a = String c2 b -> c1 = c2 /\ a = b.
Proof. intros [= H1 H2]. now split. Qed.

Lemma format_cost_small_length (x : float) :
  match x with
  | S754_zero _ | S754_finite _ _ _ =>
      SFltb x CENT = true -> (7 <= String.length (format_cost x))%nat
  | _ => True
  end.
Proof.
  destruct x as [s|s| |s mant e]; try exact I; intros H; unfold format_cost; rewrite H.
  - destruct (fixed_shape 4 (S754_zero s)) as (whole & frac & -> & H1 & _ & H3 & _).
    rewrite !length_append, H3. destruct whole; [now destruct H1 | cbn; lia].
  - destruct (fixed_shape 4 (S754_finite s mant e))
      as (whole & frac & -> & H1 & _ & H3 & _).
    rewrite !length_append, H3. destruct whole; [now destruct H1 | cbn; lia].
Qed.

(** X14. What the two formats are for: whatever the cost, in canonical
    form, [format_cost] never prints [$0.00]. Below 0.01 it prints four
    decimals, and from 0.01 on the two decimals are at least [0.01]. *)
Theorem format_cost_never_zero_dollars (cost_usd : float) :
  valid_binary prec emax cost_usd = true ->
  format_cost cost_usd <> "$0.00".
Proof.
  intros Hv.
  pose proof (format_cost_small_length cost_usd) as Hshape.
  destruct cost_usd as [s|s| |s mant e].
  - intros E. rewrite E in Hshape. cbn in Hshape.
    assert (SFltb (S754_zero s) CENT = true) as Hz by now destruct s.
    apply Hshape in Hz. lia.
  - unfold format_cost. now destruct s.
  - discriminate.
  - destruct (SFltb (S754_finite s mant e) CENT) eqn:Hlt.
    { intros E. rewrite E in Hshape. cbn in Hshape. specialize (Hshape eq_refl). lia. }
    clear Hshape. destruct s; [discriminate Hlt|].
    pose proof (scaled_cent mant e Hv Hlt) as Hs.
    unfold format_cost. rewrite Hlt. cbn [fixed sign_text].
    set (scaled := if (0 <=? e)%Z then _ else _) in *.
    rewrite append_empty_l, append_cons, append_empty_l. intros E.
    apply string_cons_eq in E as [_ E].
    pose proof (decimal_not_empty (scaled / 10 ^ Z.of_nat 2)) as Hne.
    pose proof (decimal_go_all_digits
                  (S (Z.to_nat (Z.log2 (scaled / 10 ^ Z.of_nat 2))))
                  (scaled / 10 ^ Z.of_nat 2)) as Hdig.
    fold (decimal (scaled / 10 ^ Z.of_nat 2)) in Hdig.
    destruct (decimal (scaled / 10 ^ Z.of_nat 2)) as [|c whole] eqn:Hw;
      [now destruct Hne|].
    rewrite append_cons in E. apply string_cons_eq in E as [-> E].
    destruct whole as [|c2 whole].
    + rewrite append_empty_l, append_cons, append_empty_l in E.
      apply string_cons_eq in E as [_ E].
      apply fixed_digits_two_zeros in E.
      apply decimal_zero in Hw; [|apply Z.div_pos; lia].
      change (10 ^ Z.of_nat 2) with 100 in Hw.
      rewrite (Z.div_mod scaled 100) in Hs by lia. lia.
    + rewrite append_cons in E. apply string_cons_eq in E as [-> _].
      discriminate Hdig.
Qed.

Lemma format_cost_never_zero_dollars_witness :
  format_cost (S754_finite false 6052837899185946 (-59)) <> "$0.00".
Proof. apply format_cost_never_zero_dollars. reflexivity. Defined.

Example format_cost_examples :
  format_cost (S754_finite false 6052837899185946 (-59)) = "$0.01" /\
  format_cost (int_quotient 1 1000000) = "$0.0000" /\
  format_cost (int_quotient 999 100000) = "$0.0100" /\
  format_cost (int_quotient 1 8) = "$0.12" /\
  format_cost (int_quotient 3 8) = "$0.38" /\
  format_cost (int_quotient (-1) 3) = "$-0.3333" /\
  format_cost (int_quotient 1234567 100) = "$12345.67".
Proof. repeat split; vm_compute; reflexivity. Qed.

(** ** [get_api_key] and the constructor *)

Lemma prefix_not_empty (p t : string) :
  p <> "" -> String.prefix p t = true -> t <> "".
Proof. intros Hp H ->. destruct p; [now destruct Hp | discriminate H]. Qed.

(** Every way [get_api_key] can end. *)
Lemma get_api_key_cases (sh : shell) (lines : list string) :
  let '(sh', evs, rest, o) := get_api_key sh lines in
  environ_key sh' = environ_key sh /\ bashrc_appendable sh' = bashrc_appendable sh /\
  match o with
  | Return key =>
      key <> "" /\
      ((environ_key sh = Some key /\ sh' = sh /\ evs = [] /\ rest = lines) \/
       (falsy (environ_key sh) = true /\
        String.prefix "sk-ant-" key = true /\
        exists line answer,
          lines = line :: answer :: rest /\ key = strip line /\
          ((lower (strip answer) = "y" /\ bashrc_appendable sh = true /\
            bashrc sh' = bashrc sh ++ bashrc_entry key) \/
           (lower (strip answer) <> "y" /\ sh' = sh))))
  | Raise e =>
      sh' = sh /\ falsy (environ_key sh) = true /\
      ((e = EOFError /\ rest = []) \/
       (e = SystemExit 1 /\
        exists line, lines = line :: rest /\
                     String.prefix "sk-ant-" (strip line) = false) \/
       (e = OSError /\ bashrc_appendable sh = false))
  end.
Proof.
  unfold get_api_key.
  destruct (falsy (environ_key sh)) eqn:Hf.
  2:{ split; [reflexivity|]. split; [reflexivity|].
      destruct (environ_key sh) as [[|c k]|]; try discriminate Hf.
      split; [discriminate|]. left. auto. }
  destruct lines as [|line rest]; [repeat split; auto|].
  destruct (String.prefix "sk-ant-" (strip line)) eqn:Hp; cbn [negb].
  2:{ split; [reflexivity|]. split; [reflexivity|]. split; [reflexivity|].
      split; [reflexivity|]. right. left. split; [reflexivity|]. now exists line. }
  destruct rest as [|answer rest]; [repeat split; auto|].
  destruct (String.eqb_spec (lower (strip answer)) "y") as [Hy|Hy].
  - destruct (bashrc_appendable sh) eqn:Ha.
    + split; [reflexivity|]. split; [reflexivity|].
      split; [exact (prefix_not_empty "sk-ant-" _ ltac:(discriminate) Hp)|].
      right. split; [reflexivity|]. split; [exact Hp|].
      exists line, answer. split; [reflexivity|]. split; [reflexivity|]. left. auto.
    + split; [reflexivity|]. split; [exact Ha|]. split; [reflexivity|].
      split; [reflexivity|]. right. right. auto.
  - split; [reflexivity|]. split; [reflexivity|].
    split; [exact (prefix_not_empty "sk-ant-" _ ltac:(discriminate) Hp)|].
    right. split; [reflexivity|]. split; [exact Hp|].
    exists line, answer. split; [reflexivity|]. split; [reflexivity|]. right. auto.
Qed.

(** X15. A key that [get_api_key] returns is never empty: it is the
    non-empty value of the environment variable, taken as it is with nothing
    read or printed, or a typed line, stripped, that starts with [sk-ant-].
    An empty environment variable counts as a missing one. *)
Theorem get_api_key_returns_usable_key (sh sh' : shell) (lines rest : list string)
    (evs : list key_event) (key : string) :
  get_api_key sh lines = (sh', evs, rest, Return key) ->
  key <> "" /\
  ((environ_key sh = Some key /\ sh' = sh /\ evs = [] /\ rest = lines) \/
   ((environ_key sh = None \/ environ_key sh = Some "") /\
    String.prefix "sk-ant-" key = true /\
    exists line answer, lines = line :: answer :: rest /\ key = strip line)).
Proof.
  intros H. pose proof (get_api_key_cases sh lines) as Hc. rewrite H in Hc.
  destruct Hc as (_ & _ & Hne & [Henv|(Hf & Hp & line & answer & Hl & Hk & _)]).
  - split; [exact Hne|]. now left.
  - split; [exact Hne|]. right. split; [|split; [exact Hp | eauto]].
    destruct (environ_key sh) as [[|c k]|]; (discriminate Hf || auto).
Qed.

Lemma get_api_key_returns_usable_key_witness :
  let sh := {| environ_key := Some ""; bashrc := ""; bashrc_appendable := false |} in
  "sk-ant-123" <> "" /\
  ((environ_key sh = Some "sk-ant-123" /\ sh = sh /\
    [PrintKeyNotFound; PrintOfferToSave; PrintSessionOnly "sk-ant-123"; PrintKeyRule] = [] /\
    ["2"] = ["  sk-ant-123"; "no"; "2"]) \/
   ((environ_key sh = None \/ environ_key sh = Some "") /\
    String.prefix "sk-ant-" "sk-ant-123" = true /\
    exists line answer, ["  sk-ant-123"; "no"; "2"] = [line; answer; "2"] /\
                        "sk-ant-123" = strip line)).
Proof.
  intros sh.
  apply (get_api_key_returns_usable_key sh sh ["  sk-ant-123"; "no"; "2"] ["2"]).
  reflexivity.
Defined.

(** X16. [get_api_key] only ever appends to the profile, and only its
    own entry for the key it returns, after the answer [y]; whenever it
    raises (end of input, a key without the prefix, a profile that cannot be
    opened) and whenever the answer is anything else, the profile is as it
    was. The environment variable is never set. *)
Theorem get_api_key_appends_only (sh : shell) (lines : list string) :
  let sh' := fst (fst (fst (get_api_key sh lines))) in
  environ_key sh' = environ_key sh /\
  (bashrc sh' = bashrc sh \/
   exists key line answer rest,
     snd (get_api_key sh lines) = Return key /\
     lines = line :: answer :: rest /\ lower (strip answer) = "y" /\
     bashrc sh' = bashrc sh ++ bashrc_entry key) /\
  (forall e, snd (get_api_key sh lines) = Raise e ->
             bashrc sh' = bashrc sh /\
             (e = EOFError \/ e = SystemExit 1 \/ e = OSError)).
Proof.
  pose proof (get_api_key_cases sh lines) as Hc.
  destruct (get_api_key sh lines) as [[[sh' evs] rest] [key|e]]; cbn [fst snd].
  - destruct Hc as (He & _ & _ & [(_ & -> & _)|(_ & _ & line & answer & Hl & _ & Hs)]).
    + split; [reflexivity|]. split; [now left | discriminate].
    + split; [exact He|]. split; [|discriminate].
      destruct Hs as [(Hy & _ & Hb)|(_ & ->)]; [|now left].
      right. exists key, line, answer, rest. auto.
  - destruct Hc as (He & _ & -> & _ & Hcases).
    split; [reflexivity|]. split; [now left|].
    intros e' [= <-]. split; [reflexivity|].
    destruct Hcases as [[-> _]|[[-> _]|[-> _]]]; auto.
Qed.

Lemma get_api_key_appends_only_witness :
  let sh := {| environ_key := None; bashrc := "alias ll='ls -l'";
               bashrc_appendable := false |} in
  let lines := ["sk-ant-123"; "y"] in
  let sh' := fst (fst (fst (get_api_key sh lines))) in
  bashrc sh' = bashrc sh /\ (OSError = EOFError \/ OSError = SystemExit 1 \/ OSError = OSError).
Proof.
  intros sh lines sh'.
  apply (proj2 (proj2 (get_api_key_appends_only sh lines))). reflexivity.
Defined.

(** What [__init__] leaves when it returns and when it raises. *)
Lemma init_returned (m m' : machine) :
  __init__ m = (m', Return tt) ->
  model (self m') <> VNone /\ default_max_tokens (self m') <> VNone.
Proof.
  rewrite init_unfold.
  destruct (_load_model_from_config m) as [ml [[a b]|e]]; [|discriminate].
  cbv zeta. destruct (is_none a || is_none b) eqn:Hn.
  - intros Hp.
    destruct (prompt_commits_valid _ _ Hp) as (mdl & n & -> & _). cbn. split; discriminate.
  - intros [= <-]. apply orb_false_iff in Hn as [Ha Hb]. cbn.
    split; now apply is_none_false.
Qed.

Lemma init_raised (m m' : machine) (e : exn) :
  __init__ m = (m', Raise e) ->
  config_file m' = config_file m /\ writes (log m') = writes (log m) /\
  (forall code, e = SystemExit code -> code = 0).
Proof.
  rewrite init_unfold.
  destruct (load_result m) as (ml & r & -> & Hraise & Hm).
  destruct r as [[a b]|e'].
  - assert (writes (log ml) = writes (log m) /\ config_file ml = config_file m)
      as [Hw Hfile].
    { destruct Hm as [->|(w & -> & _)]; [now split|].
      machine_log. now rewrite app_nil_r. }
    cbv zeta. destruct (is_none a || is_none b); [|discriminate].
    intros Hp.
    destruct (prompt_result _ _ _ Hp) as (Hw' & Hf' & He).
    split; [now rewrite Hf'|]. split; [now rewrite Hw'|].
    intros code ->.
    destruct He as [He|[[He _]|[He|[He|[He|[[k He]|He]]]]]]; try discriminate He.
    now injection He.
  - intros [= <- <-].
    destruct Hm as [->|(w & _ & Hw)]; [|discriminate Hw].
    split; [reflexivity|]. split; [reflexivity|].
    intros code ->.
    destruct (Hraise _ eq_refl) as [He|[He|[[k He]|He]]]; discriminate He.
Qed.

(** X17. A client that [Client(api_key)] hands back is usable: its key
    is not empty and both the model and the max-tokens field are resolved
    (not [None]). *)
Theorem Client_is_resolved (api_key : option string) (sh sh' : shell) (m m' : machine)
    (evs : list key_event) (key : string) :
  Client api_key sh m = (sh', evs, m', Return key) ->
  key <> "" /\
  model (self m') <> VNone /\ default_max_tokens (self m') <> VNone.
Proof.
  unfold Client.
  assert (forall sh0 evs0 rest0 (o : outcome string),
             (forall k, o = Return k -> k <> "") ->
             match o with
             | Raise e => (sh0, evs0, with_stdin rest0 m, Raise e)
             | Return k =>
                 let '(m1, r) := __init__ (with_stdin rest0 m) in
                 (sh0, evs0, m1,
                  match r with Return _ => Return k | Raise e => Raise e end)
             end = (sh', evs, m', Return key) ->
             key <> "" /\
             model (self m') <> VNone /\ default_max_tokens (self m') <> VNone) as Hgen.
  { intros sh0 evs0 rest0 [k|e] Hk; [|discriminate].
    destruct (__init__ (with_stdin rest0 m)) as [m1 [[]|e]] eqn:Hi; [|discriminate].
    intros [= <- <- <- <-]. split; [now apply Hk|]. exact (init_returned _ _ Hi). }
  destruct (falsy api_key) eqn:Hf.
  - pose proof (get_api_key_cases sh (stdin m)) as Hc.
    destruct (get_api_key sh (stdin m)) as [[[sh0 evs0] rest0] o].
    apply Hgen. intros k ->. now destruct Hc as (_ & _ & Hne & _).
  - apply (Hgen sh [] (stdin m) (Return (default "" api_key))). intros k [= <-].
    destruct api_key as [[|c t]|]; try discriminate Hf. discriminate.
Qed.

Lemma Client_is_resolved_witness :
  let sh := {| environ_key := None; bashrc := ""; bashrc_appendable := true |} in
  let r := Client None sh (fresh ["sk-ant-k"; "n"; "3"; "1"]) in
  "sk-ant-k" <> "" /\
  model (self (snd (fst r))) <> VNone /\ default_max_tokens (self (snd (fst r))) <> VNone.
Proof.
  intros sh r.
  apply (Client_is_resolved None sh (fst (fst (fst r))) (fresh ["sk-ant-k"; "n"; "3"; "1"])
           (snd (fst r)) (snd (fst (fst r))) "sk-ant-k").
  vm_compute. reflexivity.
Defined.

(** X18. The exit status tells where the construction stopped. When
    [Client(api_key)] ends with [SystemExit], the code is 1 for a typed key
    without the [sk-ant-] prefix, and then nothing but one console line was
    touched (profile, client fields, config file, log); or it is 0 for the
    quit choice of the model menu, and then the config file is untouched
    and nothing was written. *)
Theorem Client_exit_codes (api_key : option string) (sh sh' : shell) (m m' : machine)
    (evs : list key_event) (code : Z) :
  Client api_key sh m = (sh', evs, m', Raise (SystemExit code)) ->
  (code = 1 /\ sh' = sh /\
   exists line rest,
     stdin m = line :: rest /\ String.prefix "sk-ant-" (strip line) = false /\
     m' = with_stdin rest m) \/
  (code = 0 /\ config_file m' = config_file m /\ writes (log m') = writes (log m)).
Proof.
  unfold Client.
  assert (forall rest0 m1 (r : outcome unit),
             __init__ (with_stdin rest0 m) = (m1, r) ->
             forall k : string,
               match r with Return _ => Return k | Raise e => Raise e end
               = Raise (SystemExit code) ->
             code = 0 /\ config_file m1 = config_file m /\
             writes (log m1) = writes (log m)) as Hinit.
  { intros rest0 m1 [[]|e] Hi k; [discriminate|]. intros [= ->].
    destruct (init_raised _ _ _ Hi) as (Hf & Hw & He).
    split; [|split; [exact Hf | exact Hw]].
    exact (He code eq_refl). }
  destruct (falsy api_key) eqn:Hf.
  - pose proof (get_api_key_cases sh (stdin m)) as Hc.
    destruct (get_api_key sh (stdin m)) as [[[sh0 evs0] rest0] [k|e]].
    + destruct (__init__ (with_stdin rest0 m)) as [m1 r] eqn:Hi.
      intros [= <- <- <- Hr]. right. exact (Hinit _ _ _ Hi k Hr).
    + intros [= <- <- <- ->]. left.
      destruct Hc as (_ & _ & -> & _ & [[He _]|[[He (line & Hl & Hp)]|[He _]]]);
        try discriminate He.
      injection He as <-. split; [reflexivity|]. split; [reflexivity|].
      exists line, rest0. auto.
  - destruct (__init__ (with_stdin (stdin m) m)) as [m1 r] eqn:Hi.
    intros [= <- <- <- Hr]. right. exact (Hinit _ _ _ Hi _ Hr).
Qed.

Lemma Client_exit_codes_witness :
  let sh := {| environ_key := None; bashrc := ""; bashrc_appendable := true |} in
  let m := fresh ["my-key"; "y"; "1"] in
  (1 = 1 /\ sh = sh /\
   exists line rest,
     stdin m = line :: rest /\ String.prefix "sk-ant-" (strip line) = false /\
     with_stdin ["y"; "1"] m = with_stdin rest m) \/
  (1 = 0 /\ config_file (with_stdin ["y"; "1"] m) = config_file m /\
   writes (log (with_stdin ["y"; "1"] m)) = writes (log m)).
Proof.
  intros sh m.
  apply (Client_exit_codes None sh sh m (with_stdin ["y"; "1"] m)
           [PrintKeyNotFound; PrintInvalidKeyFormat] 1).
  reflexivity.
Defined.

(** X19. A construction that fails, at whatever point and with whatever
    exception, never touches the config file: the file is as it was and
    nothing was written. *)
Theorem Client_failure_leaves_config (api_key : option string) (sh sh' : shell)
    (m m' : machine) (evs : list key_event) (e : exn) :
  Client api_key sh m = (sh', evs, m', Raise e) ->
  config_file m' = config_file m /\ writes (log m') = writes (log m).
Proof.
  unfold Client.
  assert (forall rest0 m1 (r : outcome unit),
             __init__ (with_stdin rest0 m) = (m1, r) ->
             forall k : string,
               match r with Return _ => Return k | Raise e0 => Raise e0 end = Raise e ->
               config_file m1 = config_file m /\ writes (log m1) = writes (log m))
    as Hinit.
  { intros rest0 m1 [[]|e0] Hi k; [discriminate|]. intros [= ->].
    destruct (init_raised _ _ _ Hi) as (Hf & Hw & _). now split. }
  destruct (falsy api_key).
  - destruct (get_api_key sh (stdin m)) as [[[sh0 evs0] rest0] [k|e0]].
    + destruct (__init__ (with_stdin rest0 m)) as [m1 r] eqn:Hi.
      intros [= <- <- <- Hr]. exact (Hinit _ _ _ Hi k Hr).
    + intros [= <- <- <- ->]. now split.
  - destruct (__init__ (with_stdin (stdin m) m)) as [m1 r] eqn:Hi.
    intros [= <- <- <- Hr]. exact (Hinit _ _ _ Hi _ Hr).
Qed.

Lemma Client_failure_leaves_config_witness :
  let stored : gmap string value := <["model" := VStr OPUS_MODEL]> ∅ in
  let m := with_file {| readable := true; data := Json (VDict stored) |}
             (fresh ["2"; "5"; "150000"; "no"]) in
  let sh := {| environ_key := None; bashrc := ""; bashrc_appendable := true |} in
  let r := Client (Some "sk-ant-k") sh m in
  config_file (snd (fst r)) = config_file m /\
  writes (log (snd (fst r))) = writes (log m).
Proof.
  intros stored m sh r.
  apply (Client_failure_leaves_config (Some "sk-ant-k") sh (fst (fst (fst r))) m
           (snd (fst r)) (snd (fst (fst r))) EOFError).
  vm_compute. reflexivity.
Defined.

(** ** [query] *)

Lemma query_unfold (messages_create : request -> reply) (this : client)
    (prompt : string) (max_tokens : option Z) (system_prompt : option string) :
  query messages_create this prompt max_tokens system_prompt =
    if is_none (model this) then ([], inl (Builtin (ValueError no_model_message)))
    else
      match messages_create (sent_request this prompt max_tokens system_prompt) with
      | Failed msg => ([PrintAPICallFailed msg], inl (APIError msg))
      | Replied r =>
          match
            match model this with
            | VStr s => estimate_cost (usage_input_tokens r) (usage_output_tokens r) s
            | _ => Raise AttributeError
            end
          with
          | Raise e => ([], inl (Builtin e))
          | Return c =>
              match response_content r with
              | [] => ([], inl IndexError)
              | response_text :: _ =>
                  let res := {| text := response_text;
                                input_tokens := usage_input_tokens r;
                                output_tokens := usage_output_tokens r;
                                cost := c;
                                used_model := model this |} in
                  ([PrintResponse res], inr res)
              end
          end
      end.
Proof. reflexivity. Qed.

(** X20. When the model is priced, the transport replies and the reply
    has content, [query] returns (and prints) the first content text, the
    token counts of the reply, the model, and as cost the value of the
    pricing formula on those counts; where the formula has no value (a
    count beyond the range of the division) [query] raises its
    [OverflowError] and prints nothing. The request carries the client's
    model, the given [max_tokens] or else the stored default, the system
    prompt unless it is [None] or empty, and the prompt as the one user
    message. *)
Theorem query_prices_the_reply (messages_create : request -> reply) (this : client)
    (prompt : string) (max_tokens : option Z) (system_prompt : option string)
    (s : string) (f : family) (r : response) (t : string) (ts : list string) :
  model this = VStr s -> classify s = Some f ->
  messages_create
    {| request_model := VStr s;
       request_max_tokens :=
         match max_tokens with
         | None => default_max_tokens this
         | Some n => VInt n
         end;
       request_system :=
         match system_prompt with
         | Some (String c p) => Some (String c p)
         | _ => None
         end;
       request_messages := [("user", prompt)] |} = Replied r ->
  response_content r = t :: ts ->
  match cost_formula (usage_input_tokens r) (usage_output_tokens r) f with
  | Return c =>
      let res := {| text := t;
                    input_tokens := usage_input_tokens r;
                    output_tokens := usage_output_tokens r;
                    cost := c;
                    used_model := VStr s |} in
      query messages_create this prompt max_tokens system_prompt
        = ([PrintResponse res], inr res)
  | Raise e =>
      e = OverflowError /\
      query messages_create this prompt max_tokens system_prompt
        = ([], inl (Builtin OverflowError))
  end.
Proof.
  intros Hm Hf Hr Ht. rewrite query_unfold. unfold sent_request.
  rewrite Hm. cbn [is_none].
  replace (if falsy system_prompt then None else system_prompt)
    with (match system_prompt with
          | Some (String c p) => Some (String c p)
          | _ => None
          end) by (now destruct system_prompt as [[|c p]|]).
  rewrite Hr, (classify_estimate_cost _ _ _ _ Hf), Ht.
  destruct (cost_formula _ _ f) as [c|e] eqn:Hc; [reflexivity|].
  assert (e = OverflowError) as ->; [|now split].
  unfold cost_formula in Hc.
  destruct (truediv (usage_input_tokens r) 1000000) as [qi|ei] eqn:Ei.
  - destruct (truediv (usage_output_tokens r) 1000000) as [qo|eo] eqn:Eo;
      [discriminate Hc|].
    injection Hc as <-. exact (truediv_raises _ _ Eo).
  - injection Hc as <-. exact (truediv_raises _ _ Ei).
Qed.

Lemma query_prices_the_reply_witness :
  let echo (q : request) : reply :=
    Replied {| usage_input_tokens := 1000; usage_output_tokens := 500;
               response_content := ["Hello"; "more"] |} in
  let this := {| model := VStr "claude-sonnet-4-5"; default_max_tokens := VInt 2048 |} in
  let res := {| text := "Hello";
                input_tokens := 1000;
                output_tokens := 500;
                cost := fadd (fmul (int_quotient 1000 1000000) SONNET_INPUT)
                             (fmul (int_quotient 500 1000000) SONNET_OUTPUT);
                used_model := VStr "claude-sonnet-4-5" |} in
  query echo this "Hi" None (Some "") = ([PrintResponse res], inr res).
Proof.
  intros echo this res.
  exact (query_prices_the_reply echo this "Hi" None (Some "") "claude-sonnet-4-5" Sonnet
           _ "Hello" ["more"] eq_refl eq_refl eq_refl eq_refl).
Defined.

(** X21. [query] returns a result exactly when the client's model is a
    string that the pricing knows, the transport replies to the request,
    the pricing formula has a value on the token counts of the reply and
    the reply has at least one content block; in every other case it
    raises. *)
Theorem query_returns_iff (messages_create : request -> reply) (this : client)
    (prompt : string) (max_tokens : option Z) (system_prompt : option string) :
  (exists res, snd (query messages_create this prompt max_tokens system_prompt) = inr res)
  <->
  (exists (s : string) (f : family) (r : response) (c : float) (t : string)
          (ts : list string),
      model this = VStr s /\ classify s = Some f /\
      messages_create (sent_request this prompt max_tokens system_prompt) = Replied r /\
      cost_formula (usage_input_tokens r) (usage_output_tokens r) f = Return c /\
      response_content r = t :: ts).
Proof.
  rewrite query_unfold. split.
  - intros [res H].
    destruct (model this) as [| | | |s| |] eqn:Hm; cbn [is_none] in H;
      try discriminate H;
      destruct (messages_create _) as [r|msg] eqn:Hr; try discriminate H.
    destruct (estimate_cost _ _ s) as [c|e] eqn:Hc; [|discriminate H].
    destruct (response_content r) as [|t ts] eqn:Ht; [discriminate H|].
    destruct (classify s) as [f|] eqn:Hf.
    + exists s, f, r, c, t, ts. rewrite <- (classify_estimate_cost _ _ _ _ Hf). auto.
    + exfalso. unfold classify in Hf. cbn [List.find family_token] in Hf.
      unfold estimate_cost in Hc.
      destruct (contains "haiku" (lower s)); [discriminate Hf|].
      destruct (contains "sonnet" (lower s)); [discriminate Hf|].
      destruct (contains "opus" (lower s)); [discriminate Hf|discriminate Hc].
  - intros (s & f & r & c & t & ts & Hm & Hf & Hr & Hc & Ht).
    rewrite Hm, Hr, (classify_estimate_cost _ _ _ _ Hf), Hc, Ht. cbn. eauto.
Qed.

(** X22. The two [ValueError]s of [query]. With no model it raises before
    anything else, whatever the transport would do, and prints nothing. With
    a model string that the pricing does not know it raises after the
    transport has replied: the reply is dropped, nothing is printed and no
    result is returned. *)
Theorem query_value_errors (messages_create : request -> reply) (this : client)
    (prompt : string) (max_tokens : option Z) (system_prompt : option string) :
  (model this = VNone ->
   query messages_create this prompt max_tokens system_prompt
     = ([], inl (Builtin (ValueError no_model_message)))) /\
  (forall (s : string) (r : response),
      model this = VStr s -> classify s = None ->
      messages_create (sent_request this prompt max_tokens system_prompt) = Replied r ->
      query messages_create this prompt max_tokens system_prompt
        = ([], inl (Builtin (ValueError (unknown_model_message s))))).
Proof.
  rewrite query_unfold. split.
  - now intros ->.
  - intros s r Hm Hf Hr. rewrite Hm, Hr. cbn [is_none].
    unfold classify in Hf. cbn [List.find family_token] in Hf. unfold estimate_cost.
    destruct (contains "haiku" (lower s)); [discriminate Hf|].
    destruct (contains "sonnet" (lower s)); [discriminate Hf|].
    destruct (contains "opus" (lower s)); [discriminate Hf|reflexivity].
Qed.

Lemma query_value_errors_witness :
  let echo (q : request) : reply :=
    Replied {| usage_input_tokens := 10; usage_output_tokens := 20;
               response_content := ["Hello"] |} in
  query echo no_client "Hi" None None
    = ([], inl (Builtin (ValueError no_model_message))) /\
  query echo {| model := VStr "gpt-4"; default_max_tokens := VInt 1024 |} "Hi" None None
    = ([], inl (Builtin (ValueError (unknown_model_message "gpt-4")))).
Proof.
  intros echo. split.
  - apply (proj1 (query_value_errors echo no_client "Hi" None None)). reflexivity.
  - apply (proj2 (query_value_errors
                    echo {| model := VStr "gpt-4"; default_max_tokens := VInt 1024 |}
                    "Hi" None None) "gpt-4"
             {| usage_input_tokens := 10; usage_output_tokens := 20;
                response_content := ["Hello"] |}); reflexivity.
Defined.

Lemma query_returns_iff_witness :
  let busy (q : request) : reply := Failed "overloaded" in
  let this := {| model := VStr HAIKU_MODEL; default_max_tokens := VInt 1024 |} in
  ~ (exists (s : string) (f : family) (r : response) (c : float) (t : string)
            (ts : list string),
        model this = VStr s /\ classify s = Some f /\
        busy (sent_request this "Hi" (Some 16) None) = Replied r /\
        cost_formula (usage_input_tokens r) (usage_output_tokens r) f = Return c /\
        response_content r = t :: ts).
Proof.
  intros busy this H.
  apply (proj2 (query_returns_iff busy this "Hi" (Some 16) None)) in H.
  destruct H as [res H]. discriminate H.
Defined.
